(** * De-identification pipeline for the NHS A&E records (tutorial/deidentify.py)

    A shallow embedding of the pandas code of [deidentify.py]: data frames are
    ordered lists of rows over an ordered list of column names, every stage is
    a function from frames to results, and a raised Python exception is the
    error case of the result.

    Conventions of the embedding:
    - a cell is a string, an integer or the missing value [NaN]; the dtype
      of a column is the one [read_csv] gives these cells;
    - a floating point number is the rational it denotes ([Q]);
    - a raised exception is kept as its class name and its argument; message
      formatting around the argument is not modelled;
    - [random.shuffle], [pandas.qcut] and [pandas.to_datetime] are
      parameters of the development. *)

From stdpp Require Import gmap strings list fin_maps sorting pretty.
From Stdlib Require Import ZArith QArith.

Local Open Scope string_scope.
Local Open Scope Z_scope.

(** ** Cells, exceptions and results *)

Inductive value :=
  | VStr (s : string)
  | VInt (z : Z)
  | NaN.

Global Instance value_eq_dec : EqDecision value.
Proof. solve_decision. Defined.

Global Instance value_countable : Countable value.
Proof.
  refine (inj_countable'
    (λ v, match v with VStr s => inl s | VInt z => inr (Some z) | NaN => inr None end)
    (λ x, match x with inl s => VStr s | inr (Some z) => VInt z | inr None => NaN end) _).
  by intros [].
Defined.

Global Instance value_inhabited : Inhabited value := populate NaN.

(** A Python exception: the name of its class and its argument. *)
Record exn := Exception { exc_class : string; exc_arg : string }.

Global Instance exn_eq_dec : EqDecision exn.
Proof. solve_decision. Defined.

Definition KeyError (key : string) : exn := Exception "KeyError" key.
Definition NameError (name : string) : exn := Exception "NameError" name.
Definition ValueError (msg : string) : exn := Exception "ValueError" msg.
Definition TypeError (msg : string) : exn := Exception "TypeError" msg.
Definition InvalidIndexError (msg : string) : exn := Exception "InvalidIndexError" msg.

Inductive result (A : Type) :=
  | Ok (a : A)
  | Raise (e : exn).
Arguments Ok {A} a.
Arguments Raise {A} e.

(** Sequencing: an exception raised by [m] ends the computation. *)
Definition bind {A B} (m : result A) (f : A → result B) : result B :=
  match m with Ok a => f a | Raise e => Raise e end.

Notation "'let*' x := m 'in' k" := (bind m (λ x, k))
  (at level 10, x name, k at level 200,
   format "'[v' 'let*'  x  :=  m  'in'  '/' k ']'").

(** [[f(x) for x in l]], stopping at the first exception. *)
Fixpoint traverse {A B} (f : A → result B) (l : list A) : result (list B) :=
  match l with
  | [] => Ok []
  | a :: l' => let* b := f a in let* bs := traverse f l' in Ok (b :: bs)
  end.

(** ** Data frames *)

Abbreviation Row := (gmap string value).

Record DataFrame := mkDataFrame { columns : list string; rows : list Row }.

(** The cell of row [r] under column [c]; an absent cell reads as missing. *)
Definition cell (c : string) (r : Row) : value := default NaN (r !! c).

Definition nrows (df : DataFrame) : nat := length (rows df).

(** [df[c]] *)
Definition getcol (df : DataFrame) (c : string) : result (list value) :=
  if decide (c ∈ columns df) then Ok (cell c <$> rows df)
  else Raise (KeyError c).

(** [df[c] = vals], where [vals] carries the index of [df]: an existing
    column is overwritten in place, a new one is appended. *)
Definition setcol (df : DataFrame) (c : string) (vals : list value) : DataFrame :=
  {| columns := if decide (c ∈ columns df) then columns df else columns df ++ [c];
     rows := zip_with (λ r v, <[c:=v]> r) (rows df) vals |}.

(** [df.drop(c, 1)] *)
Definition drop_column (df : DataFrame) (c : string) : result DataFrame :=
  if decide (c ∈ columns df)
  then Ok {| columns := filter (λ c', c' ≠ c) (columns df);
             rows := delete c <$> rows df |}
  else Raise (KeyError c).

(** [df[cs]] for a list of column names. *)
Definition select (df : DataFrame) (cs : list string) : result DataFrame :=
  match filter (λ c, c ∉ columns df) cs with
  | [] => Ok {| columns := cs;
                rows := (λ r, list_to_map ((λ c, (c, cell c r)) <$> cs)) <$> rows df |}
  | c :: _ => Raise (KeyError c)
  end.

(** [df.drop_duplicates()]: the first of equal rows is kept. *)
Fixpoint drop_duplicates_rows (seen rs : list Row) : list Row :=
  match rs with
  | [] => []
  | r :: rs' =>
      if decide (r ∈ seen) then drop_duplicates_rows seen rs'
      else r :: drop_duplicates_rows (r :: seen) rs'
  end.

Definition drop_duplicates (df : DataFrame) : DataFrame :=
  {| columns := columns df; rows := drop_duplicates_rows [] (rows df) |}.

(** [df[df[c].isin(vs)]] *)
Definition filter_isin (df : DataFrame) (c : string) (vs : list value) : result DataFrame :=
  let* mask := getcol df c in
  Ok {| columns := columns df;
        rows := filter (λ r, cell c r ∈ vs) (rows df) |}.

(** ** Column types *)

Definition is_string (v : value) : Prop :=
  match v with VStr _ => True | _ => False end.

Global Instance is_string_dec v : Decision (is_string v).
Proof. destruct v; simpl; apply _. Defined.

Definition is_int (v : value) : Prop :=
  match v with VInt _ => True | _ => False end.

Global Instance is_int_dec v : Decision (is_int v).
Proof. destruct v; simpl; apply _. Defined.

(** A cell of a numeric column: an integer or a missing value. *)
Definition is_numeric (v : value) : Prop :=
  match v with VStr _ => False | _ => True end.

Global Instance is_numeric_dec v : Decision (is_numeric v).
Proof. destruct v; simpl; apply _. Defined.

Inductive dtype := int64 | float64 | object.

(** The dtype of a column with the cells [x], as [read_csv] infers it: a
    column with a string is a column of objects, and so is an empty one;
    a column of integers is [int64]; a missing value among numbers makes
    them floats. *)
Definition dtype_of (x : list value) : dtype :=
  if decide (x = [] ∨ Exists is_string x) then object
  else if decide (Forall is_int x) then int64
  else float64.

Definition dtype_name (t : dtype) : string :=
  match t with int64 => "int64" | float64 => "float64" | object => "object" end.

(** ** Joins *)

(** The values of [x] that are not in [seen], each once, in the order in
    which they first occur. *)
Fixpoint first_occurrences (seen x : list value) : list value :=
  match x with
  | [] => []
  | v :: x' =>
      if decide (v ∈ seen) then first_occurrences seen x'
      else v :: first_occurrences (v :: seen) x'
  end.

(** The rows [rs] grouped by their cell under [key]: the groups in the
    order in which their keys first occur, the rows of a group in their
    order in [rs]. This is the order in which an inner [pd.merge] takes the
    rows of its left frame. *)
Definition grouped (key : string) (rs : list Row) : list Row :=
  k ← first_occurrences [] (cell key <$> rs);
  filter (λ r, cell key r = k) rs.

(** The check of the key columns [lk] and [rk] of a join
    ([_maybe_coerce_merge_keys]): when neither is empty, a numeric column
    is not joined with a column of strings. A column of objects with an
    integer in it passes for either. *)
Definition merge_keys_error (lk rk : list value) : option exn :=
  let numeric x := bool_decide (Forall is_numeric x) in
  let strings x := bool_decide (Exists is_string x ∧ Forall (λ v, ¬ is_int v) x) in
  if bool_decide (lk ≠ [] ∧ rk ≠ [])
     && (numeric lk && strings rk || strings lk && numeric rk)
  then Some (ValueError ("You are trying to merge on " +:+ dtype_name (dtype_of lk)
                         +:+ " and " +:+ dtype_name (dtype_of rk)
                         +:+ " columns. If you wish to proceed you should use pd.concat"))
  else None.

(** [pd.merge(left, right, on=key)]: an inner join on one key column. The
    rows come grouped by the key of the left row; a column other than the
    key that both frames have is renamed with the suffixes [_x] and
    [_y]. *)
Definition merge_row (lcols rcols : list (string * string)) (l r : Row) : Row :=
  list_to_map ((λ c, (c.2, cell c.1 l)) <$> lcols)
  ∪ list_to_map ((λ c, (c.2, cell c.1 r)) <$> rcols).

Definition merge (left right : DataFrame) (key : string) : result DataFrame :=
  if decide (key ∈ columns right) then
    if decide (key ∈ columns left) then
      let overlap c := bool_decide (c ≠ key ∧ c ∈ columns left ∧ c ∈ columns right) in
      let lcols := (λ c, (c, if overlap c then c ++ "_x" else c)) <$> columns left in
      let rcols := (λ c, (c, if overlap c then c ++ "_y" else c))
                     <$> filter (λ c, c ≠ key) (columns right) in
      match merge_keys_error (cell key <$> rows left) (cell key <$> rows right) with
      | Some e => Raise e
      | None =>
          Ok {| columns := lcols.*2 ++ rcols.*2;
                rows := l ← grouped key (rows left);
                        r ← filter (λ r, cell key r = cell key l) (rows right);
                        [merge_row lcols rcols l r] |}
      end
    else Raise (KeyError key)
  else Raise (KeyError key).

(** ** Stage 2: remove the direct identifier *)

Definition remove_nhs_numbers (nhs_ae_df : DataFrame) : result DataFrame :=
  let* nhs_ae_df := drop_column nhs_ae_df "NHS number" in
  Ok nhs_ae_df.

(** ** Binning: [pandas.cut] *)

(** [numpy.searchsorted(bins, x, side='left')] on increasing [bins]: the
    position of the first edge that is not below [x]. *)
Fixpoint searchsorted (bins : list Q) (x : Q) : nat :=
  match bins with
  | [] => 0%nat
  | b :: bins' => if Qle_bool x b then 0%nat else S (searchsorted bins' x)
  end.

(** The bin of [x], counted from 1, with the intervals closed on the right
    (the default [right=True]); [None] is pandas' [na_mask]: [x] lies in no
    bin. With [include_lowest] the first edge belongs to the first bin. *)
Definition bin_index (bins : list Q) (include_lowest : bool) (x : Q) : option nat :=
  let ids := searchsorted bins x in
  let ids := if include_lowest && Qeq_bool x (hd 0%Q bins) then 1%nat else ids in
  if decide (ids = 0%nat ∨ ids = length bins) then None else Some ids.

(** [(np.diff(bins) < 0).any()] is false. *)
Fixpoint monotonic (bins : list Q) : bool :=
  match bins with
  | b1 :: ((b2 :: _) as bins') => Qle_bool b1 b2 && monotonic bins'
  | _ => true
  end.

(** [len(algos.unique(bins)) == len(bins)] *)
Fixpoint unique_edges (bins : list Q) : bool :=
  match bins with
  | [] => true
  | b :: bins' => forallb (λ b', negb (Qeq_bool b b')) bins' && unique_edges bins'
  end.

(** [not (len(unique_bins) < len(bins) and len(bins) != 2)] *)
Definition edges_ok (bins : list Q) : bool :=
  unique_edges bins || bool_decide (length bins = 2%nat).

(** The [labels] argument of [cut]: [labels=False] or a list of names. *)
Inductive cut_labels :=
  | LabelsFalse
  | Labels (names : list string).

(** [labels is False or len(labels) == len(bins) - 1] *)
Definition labels_ok (bins : list Q) (labels : cut_labels) : bool :=
  match labels with
  | LabelsFalse => true
  | Labels names => bool_decide (length names = (length bins - 1)%nat)
  end.

(** A numeric cell as a number; a string cell cannot be compared with the
    bin edges. *)
Definition to_numeric (v : value) : result (option Q) :=
  match v with
  | VInt z => Ok (Some (inject_Z z))
  | NaN => Ok None
  | VStr _ => Raise (TypeError "'<' not supported between instances of 'int' and 'str'")
  end.

(** The entry of the result of [cut] for one cell. *)
Definition cut_cell (bins : list Q) (labels : cut_labels) (include_lowest : bool)
    (x : option Q) : value :=
  match x ≫= bin_index bins include_lowest with
  | None => NaN
  | Some ids =>
      match labels with
      | LabelsFalse => VInt (Z.of_nat ids - 1)
      | Labels names => from_option VStr NaN (names !! (ids - 1)%nat)
      end
  end.

(** [pd.cut(x, bins=bins, labels=labels, include_lowest=include_lowest)] *)
Definition cut (x : list value) (bins : list Q) (labels : cut_labels)
    (include_lowest : bool) : result (list value) :=
  if negb (monotonic bins) then Raise (ValueError "bins must increase monotonically.")
  else if negb (edges_ok bins) then Raise (ValueError "Bin edges must be unique")
  else
    let* xs := traverse to_numeric x in
    if labels_ok bins labels
    then Ok (cut_cell bins labels include_lowest <$> xs)
    else Raise (ValueError "Bin labels must be one fewer than the number of bin edges").

(** [series + 1] *)
Definition add_scalar (n : Z) (x : list value) : result (list value) :=
  traverse (λ v, match v with
                 | VInt z => Ok (VInt (z + n))
                 | NaN => Ok NaN
                 | VStr _ => Raise (TypeError "can only concatenate str (not int) to str")
                 end) x.

(** ** The reference table and the parameters of a run *)

(** A line of the London postcodes file: the three columns the pipeline
    reads. *)
Record postcode_record := {
  rec_postcode : string;
  rec_lsoa : string;
  rec_imd : Z
}.

Definition LSOA : string := "Lower layer super output area".
Definition IMD : string := "Index of Multiple Deprivation".
Definition IMD_DECILE : string := "Index of Multiple Deprivation Decile".

(** [pd.read_csv] of the postcodes file with the lines [recs]. *)
Definition read_postcodes (recs : list postcode_record) : DataFrame :=
  {| columns := ["Postcode"; LSOA; IMD];
     rows := (λ p, {[ "Postcode" := VStr (rec_postcode p);
                     LSOA := VStr (rec_lsoa p);
                     IMD := VInt (rec_imd p) ]}) <$> recs |}.

(** A timestamp as [pandas.to_datetime] produces it. *)
Record datetime := {
  dt_year : Z; dt_month : Z; dt_day : Z;
  dt_hour : Z; dt_minute : Z; dt_second : Z
}.

(** Decimal digits of [n], padded with zeros on the left to [width]. *)
Definition zero_pad (width : nat) (n : Z) : string :=
  let digits := pretty (Z.to_N n) in
  String.concat "" (replicate (width - String.length digits) "0") +:+ digits.

(** [t.strftime('%Y-%m-%d')]; the missing timestamp [NaT] gives [NaN]. *)
Definition strftime_Ymd (t : option datetime) : value :=
  match t with
  | Some t => VStr (zero_pad 4 (dt_year t) +:+ "-" +:+ zero_pad 2 (dt_month t)
                    +:+ "-" +:+ zero_pad 2 (dt_day t))
  | None => NaN
  end.

(** [t.hour] *)
Definition hour_of (t : option datetime) : value :=
  match t with
  | Some t => VInt (dt_hour t)
  | None => NaN
  end.

(** [series.map(d)] for a dict [d]: a value that is no key maps to [NaN]. *)
Definition series_map (d : gmap value Z) (x : list value) : list value :=
  (λ v, from_option VInt NaN (d !! v)) <$> x.

(** [{k : v for k, v in pairs}]: later pairs overwrite earlier ones. *)
Definition dict_of (pairs : list (value * Z)) : gmap value Z :=
  foldl (λ d kv, <[kv.1 := kv.2]> d) ∅ pairs.

(** [list(set(x.tolist()))], in the order of [elements]: equal values are
    one element of the set. A missing value is equal to no value; the
    missing values of a numeric column are float objects of their own, and
    each of them is an element, those of a column of objects are one
    object, hence one element. *)
Definition set_tolist (x : list value) : list value :=
  elements (list_to_set (filter (λ v, v ≠ NaN) x) : gset value)
  ++ match dtype_of x with
     | object => take 1 (filter (λ v, v = NaN) x)
     | _ => filter (λ v, v = NaN) x
     end.

(** [series.map(d)] for the dict [d] with the keys [keys]: the dict is
    made a Series with the keys as its index, and the lookup refuses an
    index in which a value occurs twice, as several missing values do. *)
Definition series_map_dict (keys : list value) (d : gmap value Z) (x : list value)
    : result (list value) :=
  if decide (NoDup keys) then Ok (series_map d x)
  else Raise (InvalidIndexError "Reindexing only valid with uniquely valued Index objects").

(** The value of the variable [name] in a function body whose local
    variables are [locals]. The module binds no global of the names that
    are looked up this way, and neither do the builtins, so that a name
    that is not local is not defined. *)
Definition load_name (locals : list (string * DataFrame)) (name : string)
    : result DataFrame :=
  match (list_to_map locals : gmap string DataFrame) !! name with
  | Some df => Ok df
  | None => Raise (NameError name)
  end.

(** What a run leaves behind: the frame written to the output file, if the
    run got that far, and the exception that ended it, if any. *)
Record outcome := { written : option DataFrame; raised : option exn }.

Section pipeline.

(** The lines of the postcodes file at [filepaths.postcodes_london]. *)
Variable postcodes_london : list postcode_record.

(** The bin edges of [pd.qcut(x, q, retbins=True, labels=False)], the
    quantiles [0/q, 1/q, ..., q/q] of [x] as pandas computes them in
    floating point, or the exception it raises. *)
Variable qcut : list value → positive → result (list Q).

(** [random.shuffle]: the order it leaves a list in. *)
Variable shuffle : list value → list value.

(** [pandas.to_datetime] on one cell; [None] is [NaT]. *)
Variable to_datetime : value → result (option datetime).

(** ** Stage 3: geographic generalization *)

Definition convert_postcodes_to_lsoa (nhs_ae_df : DataFrame) : result DataFrame :=
  let postcodes_df := read_postcodes postcodes_london in
  let* right := select postcodes_df ["Postcode"; LSOA] in
  let* nhs_ae_df := merge nhs_ae_df right "Postcode" in
  let* nhs_ae_df := drop_column nhs_ae_df "Postcode" in
  Ok nhs_ae_df.

(** ** Stage 4: deprivation decile *)

Definition convert_lsoa_to_imd_decile (nhs_ae_df : DataFrame) : result DataFrame :=
  let postcodes_df := read_postcodes postcodes_london in
  let* right := select postcodes_df [LSOA; IMD] in
  let* nhs_ae_df := merge nhs_ae_df (drop_duplicates right) LSOA in
  let* reference_imd := getcol postcodes_df IMD in
  let* bins := qcut reference_imd 10 in
  let* imd := getcol nhs_ae_df IMD in
  let* codes := cut imd bins LabelsFalse true in
  let* deciles := add_scalar 1 codes in
  let nhs_ae_df := setcol nhs_ae_df IMD_DECILE deciles in
  let* nhs_ae_df := drop_column nhs_ae_df IMD in
  let* nhs_ae_df := drop_column nhs_ae_df LSOA in
  Ok nhs_ae_df.

(** ** Stage 5: hospital pseudonymization *)

Definition replace_hospital_with_random_number (nhs_ae_df : DataFrame)
    : result DataFrame :=
  let* names := getcol nhs_ae_df "Hospital" in
  let hospitals := shuffle (set_tolist names) in
  let hospital_ids := seqZ 1 (Z.of_nat (length hospitals)) in
  let hospitals_map := dict_of (zip hospitals hospital_ids) in
  let* names := getcol nhs_ae_df "Hospital" in
  let* ids := series_map_dict hospitals hospitals_map names in
  let nhs_ae_df := setcol nhs_ae_df "Hospital ID" ids in
  let* nhs_ae_df := drop_column nhs_ae_df "Hospital" in
  Ok nhs_ae_df.

(** ** Stage 6: temporal generalization *)

Definition hour_bins : list Q := [0; 4; 8; 12; 16; 20; 24]%Q.
Definition hour_labels : list string :=
  ["00-03"; "04-07"; "08-11"; "12-15"; "16-19"; "20-23"].

Definition put_time_in_4_hour_bins (nhs_ae_df : DataFrame) : result DataFrame :=
  let* times := getcol nhs_ae_df "Arrival Time" in
  let* arrival_times := traverse to_datetime times in
  let nhs_ae_df := setcol nhs_ae_df "Arrival Date" (strftime_Ymd <$> arrival_times) in
  let nhs_ae_df := setcol nhs_ae_df "Arrival Hour" (hour_of <$> arrival_times) in
  let* hours := getcol nhs_ae_df "Arrival Hour" in
  let* ranges := cut hours hour_bins (Labels hour_labels) true in
  let nhs_ae_df := setcol nhs_ae_df "Arrival hour range" ranges in
  let* nhs_ae_df := drop_column nhs_ae_df "Arrival Time" in
  let* nhs_ae_df := drop_column nhs_ae_df "Arrival Hour" in
  load_name [("nhs_ae_df", nhs_ae_df)] "nhs_df".

(** ** Stage 7: categorical filtering *)

Definition remove_non_male_or_female (nhs_df : DataFrame) : result DataFrame :=
  let* nhs_df := filter_isin nhs_df "Gender" [VStr "Male"; VStr "Female"] in
  Ok nhs_df.

(** ** Stage 8: age bracketing *)

Definition age_bins : list Q := [0; 18; 25; 45; 65; 85; 150]%Q.
Definition age_labels : list string :=
  ["0-17"; "18-24"; "25-44"; "45-64"; "65-84"; "85-"].

Definition add_age_brackets (nhs_df : DataFrame) : result DataFrame :=
  let* ages := getcol nhs_df "Age" in
  let* brackets := cut ages age_bins (Labels age_labels) true in
  let nhs_df := setcol nhs_df "Age bracket" brackets in
  let* nhs_df := drop_column nhs_df "Age" in
  Ok nhs_df.

(** ** The run *)

(** [load_nhs_london_ae_data()], where [nhs_ae_data] is the content of the
    file at [filepaths.nhs_ae_data]. *)
Definition load_nhs_london_ae_data (nhs_ae_data : DataFrame) : result DataFrame :=
  Ok nhs_ae_data.

(** The stages of [main] after loading, in the order [main] calls them. *)
Definition stages : list (DataFrame → result DataFrame) :=
  [ remove_nhs_numbers;
    convert_postcodes_to_lsoa;
    convert_lsoa_to_imd_decile;
    replace_hospital_with_random_number;
    put_time_in_4_hour_bins;
    remove_non_male_or_female;
    add_age_brackets ].

(** Calling the stages [fs] one after the other on [df]. *)
Fixpoint run (fs : list (DataFrame → result DataFrame)) (df : DataFrame)
    : result DataFrame :=
  match fs with
  | [] => Ok df
  | f :: fs' => let* df := f df in run fs' df
  end.

(** The body of [main] up to the frame handed to [to_csv]. *)
Definition deidentify (nhs_ae_data : DataFrame) : result DataFrame :=
  let* nhs_ae_df := load_nhs_london_ae_data nhs_ae_data in
  let* nhs_ae_df := remove_nhs_numbers nhs_ae_df in
  let* nhs_ae_df := convert_postcodes_to_lsoa nhs_ae_df in
  let* nhs_ae_df := convert_lsoa_to_imd_decile nhs_ae_df in
  let* nhs_ae_df := replace_hospital_with_random_number nhs_ae_df in
  let* nhs_ae_df := put_time_in_4_hour_bins nhs_ae_df in
  let* nhs_ae_df := remove_non_male_or_female nhs_ae_df in
  let* nhs_ae_df := add_age_brackets nhs_ae_df in
  Ok nhs_ae_df.

(** [main()]: the frame is written once all stages returned; the lines
    after [to_csv] then read [time] and [start], which the module never
    binds. *)
Definition main (nhs_ae_data : DataFrame) : outcome :=
  match deidentify nhs_ae_data with
  | Ok nhs_ae_df => {| written := Some nhs_ae_df; raised := Some (NameError "time") |}
  | Raise e => {| written := None; raised := Some e |}
  end.

End pipeline.

(** ** Concrete data *)

(** A parser for timestamps written [YYYY-MM-DD hh:mm:ss], the instance of
    [to_datetime] used on concrete frames; a missing cell is [NaT]. *)
Definition digits_of (s : string) : option Z :=
  foldl (λ acc a,
           n ← acc;
           let d := Z.of_N (Ascii.N_of_ascii a) - 48 in
           if decide (0 ≤ d ≤ 9) then Some (10 * n + d) else None)
        (Some 0) (String.list_ascii_of_string s).

Definition iso_to_datetime (v : value) : result (option datetime) :=
  match v with
  | NaN => Ok None
  | VInt _ => Raise (TypeError "not a timestamp string")
  | VStr s =>
      let field start len := digits_of (String.substring start len s) in
      match field 0%nat 4%nat, field 5%nat 2%nat, field 8%nat 2%nat,
            field 11%nat 2%nat, field 14%nat 2%nat, field 17%nat 2%nat with
      | Some y, Some m, Some d, Some hh, Some mm, Some ss =>
          if decide (String.length s = 19%nat)
          then Ok (Some {| dt_year := y; dt_month := m; dt_day := d;
                           dt_hour := hh; dt_minute := mm; dt_second := ss |})
          else Raise (ValueError s)
      | _, _, _, _, _, _ => Raise (ValueError s)
      end
  end.

(** An instance of [qcut] for the small tables below: the quantiles
    [0/q, 1/q, ..., q/q] of the integers of [x] by linear interpolation
    between the two nearest ranks, in exact arithmetic: with
    [k * (n - 1) = q * j + r] the edge [k] is
    [sorted[j] + (r/q) * (sorted[j+1] - sorted[j])]. Equal edges are
    refused, and so is a column without a number. *)
Definition exact_quantile (sorted : list Z) (q : positive) (k : nat) : Q :=
  let n := Z.of_nat (length sorted) in
  let pos := Z.of_nat k * (n - 1) in
  let j := pos `div` Z.pos q in
  let r := pos `mod` Z.pos q in
  let lo := sorted !!! Z.to_nat j in
  let hi := if decide (r = 0) then lo else sorted !!! Z.to_nat (j + 1) in
  (Z.pos q * lo + r * (hi - lo)) # q.

Definition exact_qcut (x : list value) (q : positive) : result (list Q) :=
  let* xs := traverse (λ v, match v with
                      | VInt z => Ok (Some z)
                      | NaN => Ok None
                      | VStr _ => Raise (TypeError "not a number")
                      end) x in
  let sorted := merge_sort Z.le (omap id xs) in
  let bins := exact_quantile sorted q <$> seq 0 (S (Pos.to_nat q)) in
  if decide (omap id xs = []) then Raise (TypeError "no number")
  else if edges_ok bins then Ok bins
  else Raise (ValueError "Bin edges must be unique").

(** A postcodes file of eleven lines, one small area each, with the
    deprivation indices 1 to 11: the decile edges are 1, 2, ..., 11. *)
Definition eleven_postcodes : list postcode_record :=
  (λ i, {| rec_postcode := "P" +:+ pretty i;
           rec_lsoa := "L" +:+ pretty i;
           rec_imd := i |}) <$> seqZ 1 11.

Definition visit (nhs postcode hospital time gender : string) (age : Z) : Row :=
  {[ "NHS number" := VStr nhs; "Postcode" := VStr postcode;
     "Hospital" := VStr hospital; "Arrival Time" := VStr time;
     "Gender" := VStr gender; "Age" := VInt age ]}.

Definition visit_columns : list string :=
  ["NHS number"; "Postcode"; "Hospital"; "Arrival Time"; "Gender"; "Age"].

(** The three visits of the end-to-end scenario. *)
Definition three_visits : DataFrame :=
  {| columns := visit_columns;
     rows := [ visit "111" "P3" "A" "2019-04-01 07:15:00" "Male" 10;
               visit "222" "P10" "B" "2019-04-02 00:05:00" "Female" 30;
               visit "333" "P3" "A" "2019-04-03 23:59:59" "Other" 90 ] |}.

(** ** Vocabulary of the statements *)

(** The number in a numeric cell. *)
Definition numeric_view (v : value) : option Q :=
  match v with VInt z => Some (inject_Z z) | _ => None end.

(** Every column that some stage adds to the frame it is given. *)
Definition added_columns : list string :=
  [ LSOA; LSOA +:+ "_x"; LSOA +:+ "_y"; IMD; IMD +:+ "_x"; IMD +:+ "_y";
    IMD_DECILE; "Hospital ID"; "Arrival Date"; "Arrival Hour";
    "Arrival hour range"; "Age bracket" ].

(** The rows of the two projections of the postcodes file that the joins
    read. *)
Definition postcode_lsoa_row (p : postcode_record) : Row :=
  {[ "Postcode" := VStr (rec_postcode p); LSOA := VStr (rec_lsoa p) ]}.

Definition lsoa_imd_row (p : postcode_record) : Row :=
  {[ LSOA := VStr (rec_lsoa p); IMD := VInt (rec_imd p) ]}.

(** One cell of [series + n] on a numeric column. *)
Definition plus_cell (n : Z) (v : value) : value :=
  match v with VInt z => VInt (z + n) | _ => NaN end.

(** The decile that stage 4 writes next to a deprivation index cell [v],
    given the bin edges [bins]. *)
Definition decile_cell (bins : list Q) (v : value) : value :=
  plus_cell 1 (cut_cell bins LabelsFalse true (numeric_view v)).

(** An integer that a float64 number holds exactly: [pd.cut] compares the
    cells with the edges as floats. *)
Definition float_exact (z : Z) : Prop := - 2 ^ 53 ≤ z ≤ 2 ^ 53.

Global Instance float_exact_dec z : Decision (float_exact z).
Proof. unfold float_exact. apply _. Defined.

(** What the statements on stage 4 use of the ten-quantiles of the
    integers [zs] that [pd.qcut] computes: the edges [bins] are eleven
    numbers, the first one the least and the last one the greatest of
    [zs]. *)
Definition spans (bins : list Q) (zs : list Z) : Prop :=
  length bins = 11%nat ∧
  ∃ lo hi e0 e10,
    lo ∈ zs ∧ hi ∈ zs ∧ (∀ z, z ∈ zs → lo ≤ z ≤ hi) ∧
    bins !! 0%nat = Some e0 ∧ (e0 == inject_Z lo)%Q ∧
    bins !! 10%nat = Some e10 ∧ (e10 == inject_Z hi)%Q.

(** The small areas of the reference table [ref], as the second join
    reads them: the key column of its right frame. *)
Definition reference_areas (ref : list postcode_record) : list value :=
  cell LSOA <$> drop_duplicates_rows [] (lsoa_imd_row <$> ref).

(** The row that stage 4 makes of the row [l] of a frame with the columns
    [cols] and the row [r] of the reference table that the join gives
    it, with the bin edges [bins]. *)
Definition decile_row (bins : list Q) (cols : list string) (l r : Row) : Row :=
  let m := merge_row ((λ c, (c, c)) <$> cols) [(IMD, IMD)] l r in
  delete LSOA (delete IMD (<[IMD_DECILE := decile_cell bins (cell IMD m)]> m)).

(** Stage 4 row by row: the rows it makes of the row [l], one for each
    distinct (small area, index) pair of the reference table [ref] with
    the small area of [l]. *)
Definition decile_rows (ref : list postcode_record) (bins : list Q)
    (cols : list string) (l : Row) : list Row :=
  decile_row bins cols l
  <$> filter (λ r, cell LSOA r = cell LSOA l)
        (drop_duplicates_rows [] (lsoa_imd_row <$> ref)).

(** The frame stage 4 returns for [df] when it returns one: the rows of
    [df] are taken grouped by their small area. *)
Definition decile_frame (ref : list postcode_record) (bins : list Q)
    (df : DataFrame) : DataFrame :=
  {| columns :=
       filter (λ c, c ≠ LSOA)
         (filter (λ c, c ≠ IMD)
            (if decide (IMD_DECILE ∈ (columns df ++ [IMD])%list)
             then (columns df ++ [IMD])%list
             else ((columns df ++ [IMD]) ++ [IMD_DECILE])%list));
     rows := grouped LSOA (rows df) ≫= decile_rows ref bins (columns df) |}.

(** The column that each stage of [stages] reads first, in the order of the
    stages. *)
Definition expected_columns : list string :=
  ["NHS number"; "Postcode"; LSOA; "Hospital"; "Arrival Time"; "Gender"; "Age"].

(** Every small area of the reference table [ref] has one deprivation
    index. *)
Definition one_index_per_area (ref : list postcode_record) : Prop :=
  Forall (λ p, Forall (λ q, rec_lsoa p = rec_lsoa q → rec_imd p = rec_imd q) ref) ref.

Global Instance one_index_per_area_dec ref : Decision (one_index_per_area ref).
Proof. unfold one_index_per_area. apply _. Defined.

(** A postcodes file of two lines, with two postcodes of one small area and
    a different deprivation index on each line. *)
Definition two_indices_one_area : list postcode_record :=
  [ {| rec_postcode := "P1"; rec_lsoa := "L1"; rec_imd := 10 |};
    {| rec_postcode := "P2"; rec_lsoa := "L1"; rec_imd := 20 |} ].

(** One visit from the postcode of the first line. *)
Definition one_visit : DataFrame :=
  {| columns := visit_columns;
     rows := [ visit "111" "P1" "A" "2019-04-01 07:15:00" "Male" 10 ] |}.

(** The three visits in a file that has no column of NHS numbers. *)
Definition visits_without_nhs_number : DataFrame :=
  {| columns := tail visit_columns;
     rows := delete "NHS number" <$> rows three_visits |}.

(** A frame with the single column "Age" and the given ages. *)
Definition ages_frame (ages : list Z) : DataFrame :=
  {| columns := ["Age"];
     rows := (λ a, {[ "Age" := VInt a ]}) <$> ages |}.

(** A frame with the single column "Arrival Time" and the given
    timestamps. *)
Definition arrivals_frame (times : list string) : DataFrame :=
  {| columns := ["Arrival Time"];
     rows := (λ t, {[ "Arrival Time" := VStr t ]}) <$> times |}.

(** The stages of [main] without the temporal one. *)
Definition stages_without_time_bins (ref : list postcode_record)
    (qcut : list value → positive → result (list Q))
    (shuffle : list value → list value) : list (DataFrame → result DataFrame) :=
  [ remove_nhs_numbers;
    convert_postcodes_to_lsoa ref;
    convert_lsoa_to_imd_decile ref qcut;
    replace_hospital_with_random_number shuffle;
    remove_non_male_or_female;
    add_age_brackets ].

(** The bin edges that [exact_qcut] gives for the reference table
    [ref]. *)
Definition decile_edges (ref : list postcode_record) : list Q :=
  match exact_qcut (VInt <$> (rec_imd <$> ref)) 10 with
  | Ok bins => bins
  | Raise _ => []
  end.

(** Three visits as stage 3 leaves them, with their small areas. *)
Definition visits_in_areas : DataFrame :=
  {| columns := [LSOA; "Hospital"];
     rows := [ {[ LSOA := VStr "L3"; "Hospital" := VStr "A" ]};
               {[ LSOA := VStr "L10"; "Hospital" := VStr "B" ]};
               {[ LSOA := VStr "L3"; "Hospital" := VStr "A" ]} ] |}.

(** The small area that the reference table [ref] gives for the postcode
    cell [v]: that of the first line with this postcode, if there is one. *)
Definition area_of_postcode (ref : list postcode_record) (v : value) : option string :=
  rec_lsoa <$> head (filter (λ p, VStr (rec_postcode p) = v) ref).

(** The deprivation index that the reference table [ref] gives for the
    small-area cell [v]: that of the first line with this small area, if
    there is one. *)
Definition index_of_area (ref : list postcode_record) (v : value) : option Z :=
  rec_imd <$> head (filter (λ p, VStr (rec_lsoa p) = v) ref).

(** The row that stage 3 makes of the row [l] of a frame with the columns
    [cols] when the postcode of [l] is in the reference table [ref]. *)
Definition with_area (ref : list postcode_record) (cols : list string) (l : Row) : Row :=
  match head (filter (λ p, VStr (rec_postcode p) = cell "Postcode" l) ref) with
  | Some p => delete "Postcode"
                (merge_row ((λ c, (c, c)) <$> cols) [(LSOA, LSOA)] l (postcode_lsoa_row p))
  | None => l
  end.

(** The row that stage 4 makes of the row [l] when the small area of [l]
    is in the reference table [ref], which gives it one index. *)
Definition with_decile (ref : list postcode_record) (bins : list Q) (cols : list string)
    (l : Row) : Row :=
  match head (filter (λ p, VStr (rec_lsoa p) = cell LSOA l) ref) with
  | Some p => decile_row bins cols l (lsoa_imd_row p)
  | None => l
  end.

(** A visit in a frame that has a column of the deprivation index
    already. *)
Definition visit_with_an_index : DataFrame :=
  {| columns := [LSOA; IMD];
     rows := [ {[ LSOA := VStr "L3"; IMD := VInt 3 ]} ] |}.

(** The first two of the three visits. *)
Definition two_visits : DataFrame :=
  {| columns := visit_columns; rows := take 2 (rows three_visits) |}.

(** A stage [f] adds no column outside [names]. *)
Definition adds_only (names : list string) (f : DataFrame → result DataFrame) : Prop :=
  ∀ df out c, f df = Ok out → c ∈ columns out → c ∈ columns df ∨ c ∈ names.

(** * Properties of the stages *)

(** ** Results and frame primitives *)

Lemma bind_Ok {A B} (m : result A) (f : A → result B) (b : B) :
  (let* x := m in f x) = Ok b ↔ ∃ a, m = Ok a ∧ f a = Ok b.
Proof.
  destruct m as [a|e]; simpl; split.
  - eauto.
  - by intros (a' & [= <-] & ?).
  - done.
  - by intros (a' & ? & ?).
Qed.

(** Splits a hypothesis [m >>= f = Ok b] into its steps. *)
Ltac inv_bind H :=
  repeat match type of H with
  | bind _ _ = Ok _ =>
      let a := fresh "df" in
      let Ha := fresh "Hstep" in
      apply bind_Ok in H as (a & Ha & H)
  end.

Lemma getcol_Ok df c vals :
  getcol df c = Ok vals ↔ c ∈ columns df ∧ vals = cell c <$> rows df.
Proof. unfold getcol. destruct (decide _); naive_solver. Qed.

Lemma getcol_present df c : c ∈ columns df → getcol df c = Ok (cell c <$> rows df).
Proof. intros ?. unfold getcol. by destruct (decide _). Qed.

Lemma getcol_missing df c : c ∉ columns df → getcol df c = Raise (KeyError c).
Proof. intros ?. unfold getcol. by destruct (decide _). Qed.

Lemma drop_column_Ok df c out :
  drop_column df c = Ok out ↔
  c ∈ columns df ∧
  out = {| columns := filter (λ c', c' ≠ c) (columns df); rows := delete c <$> rows df |}.
Proof. unfold drop_column. destruct (decide _); naive_solver. Qed.

Lemma drop_column_present df c :
  c ∈ columns df →
  drop_column df c =
  Ok {| columns := filter (λ c', c' ≠ c) (columns df); rows := delete c <$> rows df |}.
Proof. intros ?. unfold drop_column. by destruct (decide _). Qed.

Lemma drop_column_missing df c : c ∉ columns df → drop_column df c = Raise (KeyError c).
Proof. intros ?. unfold drop_column. by destruct (decide _). Qed.

Lemma columns_setcol df c vals c' :
  c' ∈ columns (setcol df c vals) ↔ c' ∈ columns df ∨ c' = c.
Proof.
  unfold setcol; simpl. destruct (decide _); [naive_solver|].
  rewrite elem_of_app, list_elem_of_singleton. naive_solver.
Qed.

Lemma merge_Ok left right key out :
  merge left right key = Ok out →
  key ∈ columns left ∧
  ∀ c, c ∈ columns out →
    c ∈ columns left ∨
    ∃ c', c' ∈ columns right ∧ c' ≠ key ∧ (c = c' ∨ c = (c' +:+ "_x") ∨ c = (c' +:+ "_y")).
Proof.
  unfold merge. destruct (decide _) as [Hr|]; [|done].
  destruct (decide _) as [Hl|]; [|done].
  destruct (merge_keys_error _ _); [done|]. intros [= <-]; simpl.
  split; [done|]. intros c.
  rewrite elem_of_app, <-!list_fmap_compose.
  rewrite !list_elem_of_fmap. intros [(c' & -> & Hc')|(c' & -> & Hc')]; simpl.
  - destruct (bool_decide _) eqn:Ho; [|by left].
    apply bool_decide_eq_true in Ho. right. exists c'. naive_solver.
  - apply list_elem_of_filter in Hc' as [? ?].
    right. exists c'. destruct (bool_decide _); naive_solver.
Qed.

(** ** Columns of the stages *)

Lemma remove_nhs_numbers_Ok df out :
  remove_nhs_numbers df = Ok out ↔
  "NHS number" ∈ columns df ∧
  out = {| columns := filter (λ c, c ≠ "NHS number") (columns df);
           rows := delete "NHS number" <$> rows df |}.
Proof.
  unfold remove_nhs_numbers. rewrite bind_Ok. split.
  - intros (df' & Hd%drop_column_Ok & [= <-]). done.
  - intros [? ->]. eexists. by rewrite drop_column_Ok.
Qed.

Lemma select_postcode_lsoa ref :
  select (read_postcodes ref) ["Postcode"; LSOA] =
  Ok {| columns := ["Postcode"; LSOA];
        rows := postcode_lsoa_row <$> ref |}.
Proof.
  unfold select. simpl. f_equal. f_equal.
  rewrite <-list_fmap_compose. apply list_fmap_ext. intros _ p _. simpl.
  vm_compute. reflexivity.
Qed.


Lemma select_lsoa_imd ref :
  select (read_postcodes ref) [LSOA; IMD] =
  Ok {| columns := [LSOA; IMD];
        rows := lsoa_imd_row <$> ref |}.
Proof.
  unfold select. simpl. f_equal. f_equal.
  rewrite <-list_fmap_compose. apply list_fmap_ext. intros _ p _. simpl.
  vm_compute. reflexivity.
Qed.

Lemma adds_only_weaken names names' f :
  names ⊆ names' → adds_only names f → adds_only names' f.
Proof. intros Hsub Hf df out c Hok Hc. destruct (Hf df out c Hok Hc); auto. Qed.

Lemma remove_nhs_numbers_adds : adds_only [] remove_nhs_numbers.
Proof.
  intros df out c Hok. apply remove_nhs_numbers_Ok in Hok as [_ ->]; simpl.
  intros [_ ?]%list_elem_of_filter. by left.
Qed.

Lemma convert_postcodes_to_lsoa_Ok ref df out :
  convert_postcodes_to_lsoa ref df = Ok out →
  "Postcode" ∈ columns df ∧ ("Postcode" ∉ columns out) ∧
  ∀ c, c ∈ columns out → c ∈ columns df ∨ c ∈ [LSOA; (LSOA +:+ "_x"); (LSOA +:+ "_y")].
Proof.
  unfold convert_postcodes_to_lsoa. rewrite select_postcode_lsoa. simpl.
  intros H. inv_bind H. injection H as <-.
  apply merge_Ok in Hstep as [Hkey Hcols].
  apply drop_column_Ok in Hstep0 as [_ ->]; simpl.
  split; [done|]. split.
  - rewrite list_elem_of_filter. naive_solver.
  - intros c [_ Hc]%list_elem_of_filter.
    destruct (Hcols c Hc) as [?|(c' & Hc' & Hne & Hnm)]; [by left|right].
    simpl in Hc'. rewrite !elem_of_cons, elem_of_nil in Hc'.
    destruct Hc' as [->|[->|[]]]; [done|].
    rewrite !elem_of_cons. naive_solver.
Qed.

(** ** Column-wise operations, row by row *)

Lemma traverse_total {A B} (f : A → result B) (g : A → B) l :
  Forall (λ a, f a = Ok (g a)) l → traverse f l = Ok (g <$> l).
Proof. induction 1 as [|a l Ha _ IH]; simpl; [done|]. by rewrite Ha, IH. Qed.

Lemma traverse_Ok {A B} (f : A → result B) l bs :
  traverse f l = Ok bs → Forall2 (λ a b, f a = Ok b) l bs.
Proof.
  revert bs. induction l as [|a l IH]; simpl; intros bs H.
  - injection H as <-. constructor.
  - inv_bind H. injection H as <-. constructor; auto.
Qed.

Lemma to_numeric_view v : is_numeric v → to_numeric v = Ok (numeric_view v).
Proof. by destruct v. Qed.

Lemma to_numeric_Ok v x : to_numeric v = Ok x → is_numeric v ∧ x = numeric_view v.
Proof. destruct v; simpl; naive_solver. Qed.

Lemma traverse_to_numeric_Ok x xs :
  traverse to_numeric x = Ok xs → Forall is_numeric x ∧ xs = numeric_view <$> x.
Proof.
  intros H%traverse_Ok. induction H as [|v y x xs Hv _ [IH1 IH2]]; [done|].
  apply to_numeric_Ok in Hv as [? ->]. split; [by constructor|]. simpl. by f_equal.
Qed.

Lemma cut_Ok x bins labels include_lowest ys :
  cut x bins labels include_lowest = Ok ys ↔
  monotonic bins = true ∧ edges_ok bins = true ∧ labels_ok bins labels = true ∧
  Forall is_numeric x ∧
  ys = (λ v, cut_cell bins labels include_lowest (numeric_view v)) <$> x.
Proof.
  unfold cut. destruct (monotonic bins); simpl; [|naive_solver].
  destruct (edges_ok bins); simpl; [|naive_solver].
  split.
  - intros H. inv_bind H. apply traverse_to_numeric_Ok in Hstep as [Hx ->].
    destruct (labels_ok bins labels); [|done]. injection H as <-.
    by rewrite <-list_fmap_compose.
  - intros (_ & _ & Hl & Hx & ->).
    rewrite (traverse_total _ numeric_view); simpl.
    + by rewrite Hl, <-list_fmap_compose.
    + eapply Forall_impl; [done|]. apply to_numeric_view.
Qed.

Lemma rows_setcol_fmap df c (g : Row → value) :
  rows (setcol df c (g <$> rows df)) = (λ r, <[c := g r]> r) <$> rows df.
Proof. unfold setcol; simpl. by rewrite zip_with_fmap_r, zip_with_diag. Qed.

Lemma nrows_fmap_rows df (g : Row → Row) cols :
  nrows {| columns := cols; rows := g <$> rows df |} = nrows df.
Proof. unfold nrows; simpl. by rewrite length_fmap. Qed.

(** ** The stages, one by one *)

Lemma remove_non_male_or_female_Ok df out :
  remove_non_male_or_female df = Ok out ↔
  "Gender" ∈ columns df ∧
  out = {| columns := columns df;
           rows := filter (λ r, cell "Gender" r ∈ [VStr "Male"; VStr "Female"]) (rows df) |}.
Proof.
  unfold remove_non_male_or_female, filter_isin. rewrite bind_Ok. split.
  - intros (df' & H & [= <-]). inv_bind H. apply getcol_Ok in Hstep as [? _].
    by injection H as <-.
  - intros [Hc ->]. eexists. split; [|done]. rewrite bind_Ok.
    eexists. by rewrite getcol_Ok.
Qed.

(** The bracket that stage 8 writes for an age cell. *)
Lemma add_age_brackets_Ok df out :
  add_age_brackets df = Ok out ↔
  "Age" ∈ columns df ∧ Forall is_numeric (cell "Age" <$> rows df) ∧
  out = {| columns := filter (λ c, c ≠ "Age")
                        (if decide ("Age bracket" ∈ columns df) then columns df
                         else (columns df ++ ["Age bracket"])%list);
           rows := (λ r, delete "Age"
                      (<["Age bracket" :=
                          cut_cell age_bins (Labels age_labels) true
                            (numeric_view (cell "Age" r))]> r)) <$> rows df |}.
Proof.
  unfold add_age_brackets. split.
  - intros H. inv_bind H. injection H as <-.
    apply getcol_Ok in Hstep as [Hage ->].
    apply cut_Ok in Hstep0 as (_ & _ & _ & Hnum & ->).
    apply drop_column_Ok in Hstep1 as [_ ->].
    split; [done|]. split; [done|]. f_equal.
    rewrite <-list_fmap_compose, rows_setcol_fmap, <-list_fmap_compose. done.
  - intros (Hage & Hnum & ->).
    rewrite bind_Ok. eexists. split; [by apply getcol_Ok|].
    rewrite bind_Ok. eexists. split; [by apply cut_Ok|].
    rewrite bind_Ok. eexists. split; [|done].
    apply drop_column_Ok. split.
    + apply columns_setcol. by left.
    + f_equal.
      rewrite <-list_fmap_compose, rows_setcol_fmap, <-list_fmap_compose. done.
Qed.

Lemma load_name_unbound df : load_name [("nhs_ae_df", df)] "nhs_df" = Raise (NameError "nhs_df").
Proof. reflexivity. Qed.

(** Stage 6 never returns a frame: its last line reads a name that is not
    bound. *)
Lemma put_time_in_4_hour_bins_not_Ok to_datetime df out :
  put_time_in_4_hour_bins to_datetime df ≠ Ok out.
Proof.
  unfold put_time_in_4_hour_bins. intros H. inv_bind H.
  by rewrite load_name_unbound in H.
Qed.

Lemma hour_of_numeric t : is_numeric (hour_of t).
Proof. by destruct t. Qed.

(** With its column present and every timestamp readable, stage 6 runs up
    to its [return] and stops there with a [NameError]. *)
Lemma put_time_in_4_hour_bins_raises to_datetime df ts :
  "Arrival Time" ∈ columns df →
  traverse to_datetime (cell "Arrival Time" <$> rows df) = Ok ts →
  put_time_in_4_hour_bins to_datetime df = Raise (NameError "nhs_df").
Proof.
  intros Hcol Hts. unfold put_time_in_4_hour_bins.
  rewrite getcol_present by done; cbn [bind].
  rewrite Hts; cbn [bind].
  set (df1 := setcol df "Arrival Date" _).
  set (df2 := setcol df1 "Arrival Hour" _).
  assert (H2 : "Arrival Hour" ∈ columns df2) by (apply columns_setcol; by right).
  assert (H1 : "Arrival Time" ∈ columns df2).
  { apply columns_setcol; left. apply columns_setcol; by left. }
  rewrite (getcol_present df2) by done; cbn [bind].
  assert (Hlen : length ts = length (rows df)).
  { apply traverse_Ok, Forall2_length in Hts. by rewrite length_fmap in Hts. }
  assert (Hnum : Forall is_numeric (cell "Arrival Hour" <$> rows df2)).
  { apply Forall_fmap, Forall_forall. intros r Hr.
    subst df2. unfold setcol in Hr; simpl in Hr.
    apply elem_of_lookup_zip_with in Hr as (i & r' & v & -> & _ & Hv).
    apply list_lookup_fmap_Some in Hv as (t & -> & _).
    unfold compose, cell. rewrite lookup_insert_eq. apply hour_of_numeric. }
  rewrite (proj2 (cut_Ok _ hour_bins (Labels hour_labels) true _)
             (conj eq_refl (conj eq_refl (conj eq_refl (conj Hnum eq_refl))))); cbn [bind].
  set (df3 := setcol df2 "Arrival hour range" _).
  assert (H3 : "Arrival Time" ∈ columns df3) by (apply columns_setcol; by left).
  rewrite (drop_column_present df3) by done; cbn [bind].
  assert (H4 : "Arrival Hour" ∈ filter (λ c', c' ≠ "Arrival Time") (columns df3)).
  { apply list_elem_of_filter. split; [done|]. apply columns_setcol; by left. }
  by rewrite drop_column_present.
Qed.

(** ** Stage 5: the dictionary of hospital numbers *)

Lemma foldl_insert_union (pairs : list (value * Z)) (d : gmap value Z) :
  NoDup pairs.*1 →
  foldl (λ d kv, <[kv.1 := kv.2]> d) d pairs = list_to_map pairs ∪ d.
Proof.
  revert d. induction pairs as [|[k v] pairs IH]; intros d Hnd; simpl.
  - by rewrite (left_id_L ∅ (∪)).
  - apply NoDup_cons in Hnd as [Hk Hnd]. rewrite IH by done.
    rewrite <-insert_union_r by (by apply not_elem_of_list_to_map_1).
    by rewrite insert_union_l.
Qed.

Lemma dict_of_list_to_map pairs : NoDup pairs.*1 → dict_of pairs = list_to_map pairs.
Proof.
  intros Hnd. unfold dict_of. rewrite foldl_insert_union by done.
  by rewrite (right_id_L ∅ (∪)).
Qed.

(** The dictionary built from a duplicate-free list of hospitals numbers
    them 1, 2, ... in the order of the list. *)
Lemma dict_of_zip_lookup (hospitals : list value) h z :
  NoDup hospitals →
  dict_of (zip hospitals (seqZ 1 (Z.of_nat (length hospitals)))) !! h = Some z ↔
  ∃ i : nat, hospitals !! i = Some h ∧ z = 1 + Z.of_nat i.
Proof.
  intros Hnd.
  assert (Hfst : (zip hospitals (seqZ 1 (Z.of_nat (length hospitals)))).*1 = hospitals).
  { apply fst_zip. rewrite length_seqZ. lia. }
  rewrite dict_of_list_to_map by (by rewrite Hfst).
  rewrite <-elem_of_list_to_map by (by rewrite Hfst).
  rewrite list_elem_of_lookup. split.
  - intros (i & [Hh [-> _]%lookup_seqZ]%lookup_zip_Some). eauto.
  - intros (i & Hh & ->). exists i. apply lookup_zip_Some. split; [done|].
    apply lookup_seqZ. split; [done|]. apply lookup_lt_Some in Hh. lia.
Qed.

Lemma columns_setcol_eq df c vals :
  columns (setcol df c vals) =
  if decide (c ∈ columns df) then columns df else (columns df ++ [c])%list.
Proof. reflexivity. Qed.

(** On a column of names the set holds every name once. *)
Lemma set_tolist_strings (x : list value) :
  Forall is_string x → set_tolist x = elements (list_to_set x : gset value).
Proof.
  intros Hx. unfold set_tolist.
  assert (H1 : filter (λ v, v ≠ NaN) x = x ∧ filter (λ v, v = NaN) x = []).
  { induction Hx as [|v x Hv _ [IH1 IH2]]; [done|].
    rewrite filter_cons_True, filter_cons_False by (destruct v; naive_solver).
    by rewrite IH1, IH2. }
  destruct H1 as [-> ->]. destruct (dtype_of x); cbn [take]; by rewrite app_nil_r.
Qed.

Lemma replace_hospital_with_random_number_Ok shuffle df out :
  let names := cell "Hospital" <$> rows df in
  let hospitals := shuffle (set_tolist names) in
  let hospitals_map := dict_of (zip hospitals (seqZ 1 (Z.of_nat (length hospitals)))) in
  replace_hospital_with_random_number shuffle df = Ok out ↔
  "Hospital" ∈ columns df ∧ NoDup hospitals ∧
  out = {| columns := filter (λ c, c ≠ "Hospital")
                     (if decide ("Hospital ID" ∈ columns df) then columns df
                      else (columns df ++ ["Hospital ID"])%list);
        rows := (λ r, delete "Hospital"
                   (<["Hospital ID" :=
                       from_option VInt NaN (hospitals_map !! cell "Hospital" r)]> r))
                <$> rows df |}.
Proof.
  intros names hospitals hospitals_map.
  unfold replace_hospital_with_random_number.
  destruct (decide ("Hospital" ∈ columns df)) as [Hcol|Hcol]; cycle 1.
  { rewrite getcol_missing by done. cbn [bind]. naive_solver. }
  rewrite getcol_present by done; cbn [bind].
  fold names. fold hospitals. fold hospitals_map.
  unfold series_map_dict. destruct (decide (NoDup hospitals)) as [Hnd|Hnd]; cbn [bind];
    [|naive_solver].
  rewrite drop_column_present by (apply columns_setcol; by left); cbn [bind].
  assert (Hrows : ∀ A (a b : A), Ok a = Ok b ↔ a = b) by (intros; naive_solver).
  rewrite Hrows. unfold series_map, names.
  rewrite <-list_fmap_compose, rows_setcol_fmap, <-list_fmap_compose.
  unfold setcol; cbn [columns]. naive_solver.
Qed.

(** ** Bins with integer edges *)

Lemma Qle_bool_inject_Z a b : Qle_bool (inject_Z a) (inject_Z b) = bool_decide (a ≤ b).
Proof.
  unfold Qle_bool; simpl. rewrite !Z.mul_1_r.
  destruct (Z.leb_spec a b); symmetry; [apply bool_decide_eq_true|apply bool_decide_eq_false]; lia.
Qed.

Lemma Qeq_bool_inject_Z a b : Qeq_bool (inject_Z a) (inject_Z b) = bool_decide (a = b).
Proof.
  unfold Qeq_bool; simpl. rewrite !Z.mul_1_r.
  destruct (Z.eqb_spec a b); symmetry; [by apply bool_decide_eq_true|by apply bool_decide_eq_false].
Qed.

(** Decides the comparisons of an integer with the integer edges of a
    list of bins that is written out. *)
Ltac cut_integer :=
  unfold cut_cell, bin_index; cbn [mbind option_bind searchsorted hd length];
  repeat (rewrite ?Qle_bool_inject_Z, ?Qeq_bool_inject_Z;
          match goal with
          | |- context [bool_decide ?P] => destruct (bool_decide_reflect P); try lia
          end);
  cbn [andb]; try reflexivity.

(** The bracket of an age, edge by edge: every bracket is open on the left
    and closed on the right, and the first one takes the age 0 as well. *)
Lemma age_bracket_of (a : Z) :
  cut_cell age_bins (Labels age_labels) true (Some (inject_Z a)) =
  if bool_decide (a < 0) then NaN
  else if bool_decide (a ≤ 18) then VStr "0-17"
  else if bool_decide (a ≤ 25) then VStr "18-24"
  else if bool_decide (a ≤ 45) then VStr "25-44"
  else if bool_decide (a ≤ 65) then VStr "45-64"
  else if bool_decide (a ≤ 85) then VStr "65-84"
  else if bool_decide (a ≤ 150) then VStr "85-"
  else NaN.
Proof.
  change age_bins with (inject_Z <$> [0; 18; 25; 45; 65; 85; 150]).
  cbn [fmap list_fmap]. cut_integer.
Qed.

(** The bracket of an hour of the day, edge by edge. *)
Lemma hour_range_of (h : Z) :
  cut_cell hour_bins (Labels hour_labels) true (Some (inject_Z h)) =
  if bool_decide (h < 0) then NaN
  else if bool_decide (h ≤ 4) then VStr "00-03"
  else if bool_decide (h ≤ 8) then VStr "04-07"
  else if bool_decide (h ≤ 12) then VStr "08-11"
  else if bool_decide (h ≤ 16) then VStr "12-15"
  else if bool_decide (h ≤ 20) then VStr "16-19"
  else if bool_decide (h ≤ 24) then VStr "20-23"
  else NaN.
Proof.
  change hour_bins with (inject_Z <$> [0; 4; 8; 12; 16; 20; 24]).
  cbn [fmap list_fmap]. cut_integer.
Qed.

(** ** Joins *)

Lemma length_bind_le {A B} (f : A → list B) (l : list A) :
  (∀ x, x ∈ l → (length (f x) ≤ 1)%nat) → (length (l ≫= f) ≤ length l)%nat.
Proof.
  induction l as [|x l IH]; intros Hf; [done|].
  change ((x :: l) ≫= f) with (f x ++ l ≫= f)%list. rewrite length_app; simpl.
  pose proof (Hf x (list_elem_of_here _ _)).
  assert (length (l ≫= f) ≤ length l)%nat;
    [apply IH; intros y Hy; apply Hf; by apply list_elem_of_further|lia].
Qed.

Lemma filter_none {A} (P : A → Prop) `{∀ x, Decision (P x)} (l : list A) :
  (∀ x, x ∈ l → ¬ P x) → filter P l = [].
Proof.
  induction l as [|x l IH]; intros HP; [done|].
  rewrite filter_cons_False by (apply HP; left).
  apply IH. intros y Hy. apply HP. by right.
Qed.

(** A key that occurs once in the right frame matches one row at most. *)
Lemma length_filter_key {A B} `{EqDecision B} (g : A → B) (v : B) (l : list A) :
  NoDup (g <$> l) → (length (filter (λ x, g x = v) l) ≤ 1)%nat.
Proof.
  induction l as [|x l IH]; [intros _; simpl; lia|].
  rewrite fmap_cons, NoDup_cons. intros [Hx Hnd].
  rewrite filter_cons. destruct (decide (g x = v)) as [<-|]; [|by apply IH].
  rewrite filter_none; [simpl; lia|].
  intros y Hy Heq. apply Hx. rewrite <-Heq. apply list_elem_of_fmap. eauto.
Qed.

Lemma bind_singleton {A B} (f : A → B) (l : list A) : l ≫= (λ x, [f x]) = f <$> l.
Proof.
  induction l as [|x l IH]; [done|].
  change ((x :: l) ≫= (λ x, [f x])) with (f x :: l ≫= (λ x, [f x])). by rewrite IH.
Qed.

(** *** The order of the left rows *)

Lemma first_occurrences_elem seen x v :
  v ∈ first_occurrences seen x ↔ v ∈ x ∧ v ∉ seen.
Proof.
  revert seen. induction x as [|v0 x IH]; intros seen; simpl.
  - rewrite !elem_of_nil. tauto.
  - destruct (decide (v0 ∈ seen)) as [Hin|Hnin].
    + rewrite IH, elem_of_cons. naive_solver.
    + rewrite !elem_of_cons, IH, elem_of_cons.
      destruct (decide (v = v0)) as [->|]; naive_solver.
Qed.

Lemma first_occurrences_NoDup seen x : NoDup (first_occurrences seen x).
Proof.
  revert seen. induction x as [|v0 x IH]; intros seen; simpl; [constructor|].
  destruct (decide (v0 ∈ seen)); [apply IH|].
  constructor; [|apply IH].
  rewrite first_occurrences_elem, elem_of_cons. naive_solver.
Qed.

Lemma bind_nil_all {A B} (l : list A) : l ≫= (λ _, @nil B) = [].
Proof. induction l as [|x l IH]; [done|]. exact IH. Qed.

Lemma group_by_other_keys {A B} `{EqDecision B} (g : A → B) (ks : list B) x (l : list A) :
  g x ∉ ks →
  ks ≫= (λ k, filter (λ y, g y = k) (x :: l)) = ks ≫= (λ k, filter (λ y, g y = k) l).
Proof.
  induction ks as [|k ks IH]; [done|]. rewrite not_elem_of_cons. intros [Hne Hks].
  change ((k :: ks) ≫= ?f) with (f k ++ ks ≫= f)%list. cbv beta.
  by rewrite IH, filter_cons_False.
Qed.

(** Collecting the elements of [l] key by key, each key once, gives [l]
    in another order. *)
Lemma group_by_Permutation {A B} `{EqDecision B} (g : A → B) (ks : list B) (l : list A) :
  NoDup ks → (∀ x, x ∈ l → g x ∈ ks) →
  ks ≫= (λ k, filter (λ x, g x = k) l) ≡ₚ l.
Proof.
  intros Hnd. induction l as [|x l IH]; intros Hks.
  - clear Hnd Hks. by induction ks.
  - assert (IH' : ks ≫= (λ k, filter (λ x, g x = k) l) ≡ₚ l).
    { apply IH. intros y Hy. apply Hks. by right. }
    trans (x :: ks ≫= (λ k, filter (λ x, g x = k) l)); [|by constructor].
    clear IH IH'.
    assert (Hx : g x ∈ ks) by (apply Hks; left). clear Hks.
    induction Hnd as [|k ks Hk Hnd IHks].
    + by apply elem_of_nil in Hx.
    + change ((k :: ks) ≫= ?f) with (f k ++ ks ≫= f)%list. cbv beta.
      destruct (decide (g x = k)) as [Heq|Hne].
      * rewrite filter_cons_True by done. subst k.
        by rewrite group_by_other_keys.
      * rewrite filter_cons_False by done.
        apply elem_of_cons in Hx as [?|Hx]; [done|].
        rewrite (IHks Hx). by rewrite Permutation_middle.
Qed.

Lemma grouped_Permutation key rs : grouped key rs ≡ₚ rs.
Proof.
  unfold grouped. apply (group_by_Permutation (cell key)).
  - apply first_occurrences_NoDup.
  - intros r Hr. apply first_occurrences_elem. split; [|apply not_elem_of_nil].
    apply list_elem_of_fmap. eauto.
Qed.

Lemma grouped_elem key rs r : r ∈ grouped key rs ↔ r ∈ rs.
Proof. by rewrite grouped_Permutation. Qed.

Lemma length_grouped key rs : length (grouped key rs) = length rs.
Proof. by rewrite grouped_Permutation. Qed.

Lemma merge_nrows left right key out :
  merge left right key = Ok out →
  NoDup (cell key <$> rows right) →
  (nrows out ≤ nrows left)%nat.
Proof.
  unfold merge. destruct (decide _); [|done]. destruct (decide _); [|done].
  destruct (merge_keys_error _ _); [done|].
  intros [= <-] Hnd. unfold nrows; simpl.
  rewrite <-(length_grouped key (rows left)).
  apply length_bind_le. intros l _.
  rewrite bind_singleton, length_fmap. by apply length_filter_key.
Qed.

(** Without a common column besides the key, no column is renamed. *)
Lemma merge_no_overlap left right key :
  key ∈ columns left → key ∈ columns right →
  (∀ c, c ∈ columns left → c ∈ columns right → c = key) →
  merge_keys_error (cell key <$> rows left) (cell key <$> rows right) = None →
  merge left right key =
  Ok {| columns := (columns left ++ filter (λ c, c ≠ key) (columns right))%list;
        rows := l ← grouped key (rows left);
                merge_row ((λ c, (c, c)) <$> columns left)
                          ((λ c, (c, c)) <$> filter (λ c, c ≠ key) (columns right)) l
                <$> filter (λ r, cell key r = cell key l) (rows right) |}.
Proof.
  intros Hl Hr Hdisj Hkeys. unfold merge.
  destruct (decide _); [|done]. destruct (decide _); [|done]. rewrite Hkeys.
  assert (Hlc : ((λ c, (c, if bool_decide (c ≠ key ∧ c ∈ columns left ∧ c ∈ columns right)
                           then c +:+ "_x" else c)) <$> columns left)
                = (λ c, (c, c)) <$> columns left).
  { apply list_fmap_ext. intros i c Hc. rewrite bool_decide_eq_false_2; [done|].
    intros (Hne & ? & ?). by apply Hne, Hdisj. }
  assert (Hrc : ((λ c, (c, if bool_decide (c ≠ key ∧ c ∈ columns left ∧ c ∈ columns right)
                           then c +:+ "_y" else c)) <$> filter (λ c, c ≠ key) (columns right))
                = (λ c, (c, c)) <$> filter (λ c, c ≠ key) (columns right)).
  { apply list_fmap_ext. intros i c Hc. rewrite bool_decide_eq_false_2; [done|].
    intros (Hne & ? & ?). by apply Hne, Hdisj. }
  rewrite Hlc, Hrc. f_equal. apply (f_equal2 mkDataFrame).
  - rewrite <-!list_fmap_compose. by rewrite !list_fmap_id.
  - apply list_bind_ext; [|done]. intros l. apply bind_singleton.
Qed.

(** *** The check of the key columns *)

Lemma merge_keys_error_None (lk rk : list value) e :
  merge_keys_error lk rk = Some e →
  lk ≠ [] ∧ rk ≠ [] ∧
  (Forall is_numeric lk ∧ Exists is_string rk ∨ Exists is_string lk ∧ Forall is_numeric rk).
Proof.
  unfold merge_keys_error. destruct (bool_decide (lk ≠ [] ∧ rk ≠ [])) eqn:Hne; [|done].
  apply bool_decide_eq_true in Hne as [? ?]. cbn [andb].
  destruct (_ || _) eqn:Hc; [|done]. intros _.
  split; [done|]. split; [done|].
  apply orb_true_iff in Hc as [Hc|Hc]; apply andb_true_iff in Hc as [H1 H2];
    apply bool_decide_eq_true in H1; apply bool_decide_eq_true in H2; tauto.
Qed.

(** A column of objects joins with a column of strings. *)
Lemma merge_keys_error_object (lk rk : list value) :
  dtype_of lk = object → Forall is_string rk →
  merge_keys_error lk rk = None.
Proof.
  intros Hl Hr. destruct (merge_keys_error lk rk) as [e|] eqn:He; [|done].
  apply merge_keys_error_None in He as (Hl0 & Hr0 & [[Hn _]|[_ Hn]]).
  - unfold dtype_of in Hl. destruct (decide _) as [[?|Hs]|]; [done| |].
    + apply Exists_exists in Hs as (v & Hv & Hs).
      eapply Forall_forall in Hn; [|done]. by destruct v.
    + by destruct (decide _).
  - destruct rk as [|v rk]; [done|].
    apply Forall_cons in Hr as [Hv _], Hn as [Hv' _]. by destruct v.
Qed.

Lemma Forall_Permutation_iff {A} (P : A → Prop) (x y : list A) :
  x ≡ₚ y → Forall P x ↔ Forall P y.
Proof.
  intros Hp. rewrite !Forall_forall.
  split; intros H v Hv; apply H; [by rewrite Hp|by rewrite <-Hp].
Qed.

Lemma Exists_Permutation_iff {A} (P : A → Prop) (x y : list A) :
  x ≡ₚ y → Exists P x ↔ Exists P y.
Proof.
  intros Hp. rewrite !Exists_exists.
  split; intros (v & Hv & ?); exists v; (split; [|done]); [by rewrite <-Hp|by rewrite Hp].
Qed.

Lemma nil_Permutation_iff {A} (x y : list A) : x ≡ₚ y → x = [] ↔ y = [].
Proof.
  intros Hp.
  split; intros ->; [by apply Permutation_nil_l in Hp|by apply Permutation_nil_r in Hp].
Qed.

Lemma dtype_of_Permutation (x y : list value) : x ≡ₚ y → dtype_of x = dtype_of y.
Proof.
  intros Hp. unfold dtype_of.
  pose proof (nil_Permutation_iff _ _ Hp).
  pose proof (Exists_Permutation_iff is_string _ _ Hp).
  pose proof (Forall_Permutation_iff is_int _ _ Hp).
  repeat destruct (decide _); tauto.
Qed.

(** The check does not look at the order of the rows. *)
Lemma merge_keys_error_Permutation (lk lk' rk : list value) :
  lk ≡ₚ lk' → merge_keys_error lk rk = merge_keys_error lk' rk.
Proof.
  intros Hp. unfold merge_keys_error. rewrite (dtype_of_Permutation _ _ Hp).
  pose proof (nil_Permutation_iff _ _ Hp).
  pose proof (Exists_Permutation_iff is_string _ _ Hp).
  pose proof (Forall_Permutation_iff is_numeric _ _ Hp).
  pose proof (Forall_Permutation_iff (λ v, ¬ is_int v) _ _ Hp).
  rewrite (bool_decide_ext (lk ≠ [] ∧ rk ≠ []) (lk' ≠ [] ∧ rk ≠ [])) by tauto.
  rewrite (bool_decide_ext (Forall is_numeric lk) (Forall is_numeric lk')) by done.
  rewrite (bool_decide_ext (Exists is_string lk ∧ Forall (λ v, ¬ is_int v) lk)
             (Exists is_string lk' ∧ Forall (λ v, ¬ is_int v) lk')) by tauto.
  done.
Qed.

(** ** The reference table as a frame *)

Lemma cell_postcode_lsoa_row p :
  cell "Postcode" (postcode_lsoa_row p) = VStr (rec_postcode p) ∧
  cell LSOA (postcode_lsoa_row p) = VStr (rec_lsoa p).
Proof. split; vm_compute; reflexivity. Qed.

Lemma cell_lsoa_imd_row p :
  cell LSOA (lsoa_imd_row p) = VStr (rec_lsoa p) ∧
  cell IMD (lsoa_imd_row p) = VInt (rec_imd p).
Proof. split; vm_compute; reflexivity. Qed.

Lemma getcol_reference_imd ref :
  getcol (read_postcodes ref) IMD = Ok (VInt ∘ rec_imd <$> ref).
Proof.
  rewrite getcol_present by (vm_compute; set_solver).
  simpl. f_equal. rewrite <-list_fmap_compose. apply list_fmap_ext.
  intros i p _. vm_compute. reflexivity.
Qed.

Lemma drop_duplicates_rows_elem seen rs r :
  r ∈ drop_duplicates_rows seen rs → r ∈ rs ∧ r ∉ seen.
Proof.
  revert seen. induction rs as [|r0 rs IH]; intros seen; simpl.
  - by intros ?%elem_of_nil.
  - destruct (decide (r0 ∈ seen)) as [Hin|Hnin].
    + intros [? ?]%IH. split; [by right|done].
    + intros [->|[? Hr]%IH]%elem_of_cons; [split; [by left|done]|].
      split; [by right|]. intros ?. apply Hr. by right.
Qed.

Lemma drop_duplicates_rows_NoDup seen rs : NoDup (drop_duplicates_rows seen rs).
Proof.
  revert seen. induction rs as [|r0 rs IH]; intros seen; simpl; [constructor|].
  destruct (decide (r0 ∈ seen)); [apply IH|].
  constructor; [|apply IH].
  intros [_ Hr]%drop_duplicates_rows_elem. apply Hr. by left.
Qed.

(** The first of equal rows stays: nothing is lost. *)
Lemma drop_duplicates_rows_complete seen rs r :
  r ∈ rs → r ∉ seen → r ∈ drop_duplicates_rows seen rs.
Proof.
  revert seen. induction rs as [|r0 rs IH]; intros seen; simpl.
  - by intros ?%elem_of_nil.
  - intros [->|Hr]%elem_of_cons Hseen.
    + destruct (decide (r0 ∈ seen)); [done|by left].
    + destruct (decide (r0 ∈ seen)); [by apply IH|].
      destruct (decide (r = r0)) as [->|]; [by left|].
      right. apply IH; [done|]. by intros [?|?]%elem_of_cons.
Qed.

(** ** Row counts of the two joins *)

Lemma convert_postcodes_to_lsoa_nrows ref df out :
  NoDup (rec_postcode <$> ref) →
  convert_postcodes_to_lsoa ref df = Ok out →
  (nrows out ≤ nrows df)%nat.
Proof.
  intros Hnd. unfold convert_postcodes_to_lsoa. rewrite select_postcode_lsoa.
  cbn [bind]. intros H. inv_bind H. injection H as <-.
  apply merge_nrows in Hstep.
  - apply drop_column_Ok in Hstep0 as [_ ->]. by rewrite nrows_fmap_rows.
  - simpl. rewrite <-list_fmap_compose.
    rewrite (list_fmap_ext _ (VStr ∘ rec_postcode) ref)
      by (intros; apply cell_postcode_lsoa_row).
    rewrite list_fmap_compose. apply NoDup_fmap_2; [|done]. by intros ?? [= ?].
Qed.

(** ** Stage 4 row by row *)

Lemma add_scalar_Ok n x ys :
  add_scalar n x = Ok ys ↔ Forall is_numeric x ∧ ys = plus_cell n <$> x.
Proof.
  unfold add_scalar. split.
  - intros H%traverse_Ok. induction H as [|v y x ys Hv _ [IH1 IH2]]; [done|].
    destruct v; try done; injection Hv as <-; (split; [by constructor|simpl; by f_equal]).
  - intros [Hx ->]. apply traverse_total.
    eapply Forall_impl; [done|]. by intros [].
Qed.

Lemma cut_cell_numeric bins include_lowest x :
  is_numeric (cut_cell bins LabelsFalse include_lowest x).
Proof. unfold cut_cell. by destruct (x ≫= _). Qed.

Lemma lookup_list_to_map_fun (f : string → value) (cols : list string) (c : string) :
  (list_to_map ((λ c, (c, f c)) <$> cols) : Row) !! c =
  if decide (c ∈ cols) then Some (f c) else None.
Proof.
  induction cols as [|c0 cols IH].
  - by rewrite fmap_nil, list_to_map_nil, lookup_empty.
  - rewrite fmap_cons, list_to_map_cons.
    destruct (decide (c0 = c)) as [->|Hne].
    + rewrite lookup_insert_eq. by rewrite decide_True by left.
    + rewrite lookup_insert_ne by done. rewrite IH.
      destruct (decide (c ∈ cols)).
      * by rewrite decide_True by (by right).
      * rewrite decide_False; [done|]. by intros [?|?]%elem_of_cons.
Qed.

Lemma merge_row_same_names cols rcols l r :
  merge_row ((λ c, (c, c)) <$> cols) ((λ c, (c, c)) <$> rcols) l r =
  list_to_map ((λ c, (c, cell c l)) <$> cols) ∪ list_to_map ((λ c, (c, cell c r)) <$> rcols).
Proof. unfold merge_row. by rewrite <-!list_fmap_compose. Qed.

Lemma lookup_merge_row_left cols rcols l r c :
  c ∈ cols →
  merge_row ((λ c, (c, c)) <$> cols) ((λ c, (c, c)) <$> rcols) l r !! c = Some (cell c l).
Proof.
  intros Hc. rewrite merge_row_same_names. apply lookup_union_Some_l.
  by rewrite lookup_list_to_map_fun, decide_True.
Qed.

Lemma lookup_merge_row_right cols rcols l r c :
  c ∉ cols → c ∈ rcols →
  merge_row ((λ c, (c, c)) <$> cols) ((λ c, (c, c)) <$> rcols) l r !! c = Some (cell c r).
Proof.
  intros Hc Hr. rewrite merge_row_same_names. rewrite lookup_union_r.
  - by rewrite lookup_list_to_map_fun, decide_True.
  - by rewrite lookup_list_to_map_fun, decide_False.
Qed.

Lemma fmap_bind {A B C} (f : B → C) (g : A → list B) (l : list A) :
  f <$> (l ≫= g) = l ≫= (λ x, f <$> g x).
Proof.
  induction l as [|x l IH]; [done|].
  change ((x :: l) ≫= g) with (g x ++ l ≫= g)%list.
  change ((x :: l) ≫= (λ x, f <$> g x)) with ((f <$> g x) ++ l ≫= (λ x, f <$> g x))%list.
  by rewrite fmap_app, IH.
Qed.

Lemma cut_eval x bins labels include_lowest :
  monotonic bins = true → edges_ok bins = true → labels_ok bins labels = true →
  Forall is_numeric x →
  cut x bins labels include_lowest =
  Ok ((λ v, cut_cell bins labels include_lowest (numeric_view v)) <$> x).
Proof. intros. by apply cut_Ok. Qed.

Lemma add_scalar_eval n x :
  Forall is_numeric x → add_scalar n x = Ok (plus_cell n <$> x).
Proof. intros. by apply add_scalar_Ok. Qed.

Lemma cut_edges_ok x bins labels include_lowest ys :
  cut x bins labels include_lowest = Ok ys → monotonic bins = true ∧ edges_ok bins = true.
Proof. intros (? & ? & _)%cut_Ok. done. Qed.

Lemma cell_IMD_merged cols l r :
  IMD ∉ cols →
  cell IMD (merge_row ((λ c, (c, c)) <$> cols) [(IMD, IMD)] l r) = cell IMD r.
Proof.
  intros Hc. unfold cell at 1.
  rewrite (lookup_merge_row_right cols [IMD]); [done|done|by left].
Qed.

Lemma decile_rows_merged ref df :
  IMD ∉ columns df →
  Forall (λ m, ∃ p, p ∈ ref ∧ cell IMD m = VInt (rec_imd p))
    (l ← grouped LSOA (rows df);
     merge_row ((λ c, (c, c)) <$> columns df) [(IMD, IMD)] l
     <$> filter (λ r, cell LSOA r = cell LSOA l)
           (drop_duplicates_rows [] (lsoa_imd_row <$> ref))).
Proof.
  intros Himd. apply Forall_forall. intros m (l & Hm & _)%list_elem_of_bind.
  apply list_elem_of_fmap in Hm as (r & -> & Hr).
  apply list_elem_of_filter in Hr as [_ Hr].
  apply drop_duplicates_rows_elem in Hr as [Hr _].
  apply list_elem_of_fmap in Hr as (p & -> & Hp).
  exists p. split; [done|]. rewrite cell_IMD_merged by done. apply cell_lsoa_imd_row.
Qed.

Lemma reference_areas_strings ref : Forall is_string (reference_areas ref).
Proof.
  apply Forall_fmap, Forall_forall. intros r [Hr _]%drop_duplicates_rows_elem.
  apply list_elem_of_fmap in Hr as (p & -> & _). simpl.
  by rewrite (proj1 (cell_lsoa_imd_row p)).
Qed.

(** What stage 4 computes when it gets its column, no column of its own
    name, small areas that can be joined with those of the reference
    table, and usable bin edges. *)
Lemma convert_lsoa_to_imd_decile_eval ref qcut df bins :
  LSOA ∈ columns df → IMD ∉ columns df →
  merge_keys_error (cell LSOA <$> rows df) (reference_areas ref) = None →
  qcut (VInt ∘ rec_imd <$> ref) 10%positive = Ok bins →
  monotonic bins = true → edges_ok bins = true →
  convert_lsoa_to_imd_decile ref qcut df = Ok (decile_frame ref bins df).
Proof.
  intros Hlsoa Himd Hkeys Hq Hmono Hedges. unfold convert_lsoa_to_imd_decile.
  rewrite select_lsoa_imd; cbn [bind].
  rewrite merge_no_overlap; cycle 1.
  { done. }
  { simpl. by left. }
  { simpl. intros c Hc [->|[->|[]%elem_of_nil]%elem_of_cons]%elem_of_cons; done. }
  { exact Hkeys. }
  cbn [bind]. rewrite getcol_reference_imd; cbn [bind]. rewrite Hq; cbn [bind].
  change (filter (λ c, c ≠ LSOA) (columns (drop_duplicates _))) with [IMD].
  change ((λ c : string, (c, c)) <$> [IMD]) with [(IMD, IMD)].
  change (rows (drop_duplicates _)) with (drop_duplicates_rows [] (lsoa_imd_row <$> ref)).
  set (merged := {| columns := (columns df ++ [IMD])%list; rows := _ |}).
  assert (Hin : IMD ∈ columns merged) by (apply elem_of_app; right; by left).
  rewrite (getcol_present merged) by done; cbn [bind].
  pose proof (decile_rows_merged ref df Himd) as Hrows. fold (rows merged) in Hrows.
  rewrite cut_eval; cycle 1.
  { done. } { done. } { done. }
  { apply Forall_fmap. eapply Forall_impl; [exact Hrows|].
    intros m (p & _ & Hp). simpl. by rewrite Hp. }
  cbn [bind]. rewrite add_scalar_eval; cycle 1.
  { apply Forall_fmap, Forall_fmap, Forall_true. intros m. apply cut_cell_numeric. }
  cbn [bind].
  rewrite <-!list_fmap_compose.
  rewrite drop_column_present by (apply columns_setcol; by left). cbn [bind].
  rewrite drop_column_present; cycle 1.
  { apply list_elem_of_filter. split; [done|]. apply columns_setcol. left.
    apply elem_of_app. by left. }
  cbn [bind]. f_equal. unfold decile_frame. apply (f_equal2 mkDataFrame); [done|].
  cbn [rows]. rewrite rows_setcol_fmap, <-!list_fmap_compose.
  subst merged. cbn [rows]. rewrite fmap_bind. apply list_bind_ext; [|done].
  intros l. unfold decile_rows. by rewrite <-list_fmap_compose.
Qed.

Lemma merge_hides_common_column df rr out :
  merge df {| columns := [LSOA; IMD]; rows := rr |} LSOA = Ok out →
  IMD ∈ columns df → IMD ∉ columns out.
Proof.
  unfold merge. destruct (decide _); [|done]. destruct (decide _); [|done].
  destruct (merge_keys_error _ _); [done|].
  intros [= <-] Himd; simpl.
  rewrite elem_of_app, <-!list_fmap_compose. intros [H|H].
  - apply list_elem_of_fmap in H as (c & Heq & Hc). simpl in Heq.
    destruct (bool_decide _) eqn:Ho in Heq.
    + apply bool_decide_eq_true in Ho as (Hne & _ & Hr).
      apply elem_of_cons in Hr as [->|Hr]; [done|].
      apply list_elem_of_singleton in Hr as ->. done.
    + subst c. apply bool_decide_eq_false in Ho. apply Ho.
      split; [done|]. split; [done|]. right; left.
  - change (filter (λ c, c ≠ LSOA) [LSOA; IMD]) with [IMD] in H.
    cbn [fmap list_fmap compose snd] in H.
    destruct (bool_decide _) eqn:Ho in H.
    + by apply list_elem_of_singleton in H.
    + apply bool_decide_eq_false in Ho. apply Ho.
      split; [done|]. split; [done|]. right; left.
Qed.

Lemma merge_keys_checked left right key out :
  merge left right key = Ok out →
  merge_keys_error (cell key <$> rows left) (cell key <$> rows right) = None.
Proof.
  unfold merge. destruct (decide _); [|done]. destruct (decide _); [|done].
  by destruct (merge_keys_error _ _).
Qed.

(** The frame of stage 4, whenever it returns one. *)
Lemma convert_lsoa_to_imd_decile_Ok ref qcut df out :
  convert_lsoa_to_imd_decile ref qcut df = Ok out →
  LSOA ∈ columns df ∧ (IMD ∉ columns df) ∧
  merge_keys_error (cell LSOA <$> rows df) (reference_areas ref) = None ∧
  ∃ bins, qcut (VInt ∘ rec_imd <$> ref) 10%positive = Ok bins ∧
    monotonic bins = true ∧ edges_ok bins = true ∧ out = decile_frame ref bins df.
Proof.
  intros Hok. pose proof Hok as H. unfold convert_lsoa_to_imd_decile in H.
  rewrite select_lsoa_imd in H; cbn [bind] in H.
  apply bind_Ok in H as (merged & Hmerge & H).
  rewrite getcol_reference_imd in H; cbn [bind] in H.
  apply bind_Ok in H as (bins & Hq & H).
  apply bind_Ok in H as (imd & Himd & H).
  apply bind_Ok in H as (codes & Hcut & _).
  apply getcol_Ok in Himd as [Himd _].
  apply cut_edges_ok in Hcut as [Hmono Hedges].
  assert (Hlsoa : LSOA ∈ columns df) by (by apply merge_Ok in Hmerge as [? _]).
  assert (Hnot : IMD ∉ columns df).
  { intros Hin. by eapply merge_hides_common_column. }
  pose proof (merge_keys_checked _ _ _ _ Hmerge) as Hkeys.
  split; [done|]. split; [done|]. split; [done|].
  exists bins. split; [done|]. split; [done|]. split; [done|].
  rewrite (convert_lsoa_to_imd_decile_eval ref qcut df bins) in Hok by done. congruence.
Qed.

Lemma reference_areas_NoDup ref :
  (∀ p q, p ∈ ref → q ∈ ref → rec_lsoa p = rec_lsoa q → rec_imd p = rec_imd q) →
  NoDup (reference_areas ref).
Proof.
  intros Hfun. apply NoDup_fmap_2_strong; [|apply drop_duplicates_rows_NoDup].
  intros r1 r2 [Hr1 _]%drop_duplicates_rows_elem [Hr2 _]%drop_duplicates_rows_elem.
  apply list_elem_of_fmap in Hr1 as (p & -> & Hp).
  apply list_elem_of_fmap in Hr2 as (q & -> & Hq).
  rewrite !(proj1 (cell_lsoa_imd_row _)). intros [= Heq].
  unfold lsoa_imd_row. by rewrite Heq, (Hfun p q).
Qed.

Lemma convert_lsoa_to_imd_decile_nrows ref qcut df out :
  (∀ p q, p ∈ ref → q ∈ ref → rec_lsoa p = rec_lsoa q → rec_imd p = rec_imd q) →
  convert_lsoa_to_imd_decile ref qcut df = Ok out →
  (nrows out ≤ nrows df)%nat.
Proof.
  intros Hfun (_ & _ & _ & bins & _ & _ & _ & ->)%convert_lsoa_to_imd_decile_Ok.
  unfold nrows, decile_frame; cbn [rows].
  rewrite <-(length_grouped LSOA (rows df)). apply length_bind_le. intros l _.
  unfold decile_rows. rewrite length_fmap. apply length_filter_key.
  by apply reference_areas_NoDup.
Qed.

(** ** Bins and their edges *)

Lemma Qle_bool_false x y : Qle_bool x y = false → (y < x)%Q.
Proof.
  intros H. apply Qnot_le_lt. intros Hle. apply Qle_bool_iff in Hle. congruence.
Qed.

(** An edge that is not below [x] bounds the position of [x]. *)
Lemma searchsorted_le bins x k b :
  bins !! k = Some b → Qle_bool x b = true → (searchsorted bins x ≤ k)%nat.
Proof.
  revert k. induction bins as [|b0 bins IH]; intros k; [done|]. simpl.
  destruct (Qle_bool x b0) eqn:Hb0; [lia|].
  destruct k as [|k]; simpl.
  - intros [= ->]. congruence.
  - intros Hk Hle. specialize (IH k Hk Hle). lia.
Qed.

Lemma searchsorted_length bins x : (searchsorted bins x ≤ length bins)%nat.
Proof.
  induction bins as [|b bins IH]; simpl; [lia|]. destruct (Qle_bool x b); lia.
Qed.

(** The position of [x] is that of the first edge that is not below it. *)
Lemma searchsorted_spec bins x :
  (∀ i b, (i < searchsorted bins x)%nat → bins !! i = Some b → (b < x)%Q) ∧
  (∀ b, bins !! searchsorted bins x = Some b → (x <= b)%Q).
Proof.
  induction bins as [|b0 bins [IH1 IH2]]; simpl.
  - split; [intros; lia|done].
  - destruct (Qle_bool x b0) eqn:Hb0.
    + split; [intros; lia|]. intros b [= <-]. by apply Qle_bool_iff.
    + split; [|done]. intros [|i] b Hi; simpl.
      * intros [= <-]. by apply Qle_bool_false.
      * apply IH1. lia.
Qed.

(** The bin of [x], by its two edges: [x] is above the lower edge and not
    above the upper one, or it is the first edge, which belongs to the
    first bin. *)
Lemma bin_index_edges bins x d :
  bins ≠ [] →
  bin_index bins true x = Some d →
  (1 ≤ d < length bins)%nat ∧
  ∃ lo hi, bins !! (d - 1)%nat = Some lo ∧ bins !! d = Some hi ∧
    ((lo < x)%Q ∧ (x <= hi)%Q ∨ d = 1%nat ∧ (x == lo)%Q).
Proof.
  intros Hne. unfold bin_index. cbn [andb].
  destruct (Qeq_bool x (hd 0%Q bins)) eqn:Hhd.
  - destruct (decide _) as [?|Hd]; [done|]. intros [= <-].
    destruct bins as [|e0 [|e1 bins]]; simpl in *; [done|lia|].
    split; [lia|]. exists e0, e1. split; [done|]. split; [done|]. right.
    split; [done|]. by apply Qeq_bool_iff.
  - destruct (decide _) as [?|Hd]; [done|]. intros [= <-].
    pose proof (searchsorted_length bins x) as Hlen.
    pose proof (searchsorted_spec bins x) as [Hlt Hle].
    set (d := searchsorted bins x) in *.
    split; [lia|].
    destruct (lookup_lt_is_Some_2 bins (d - 1)) as [lo Hlo]; [lia|].
    destruct (lookup_lt_is_Some_2 bins d) as [hi Hhi]; [lia|].
    exists lo, hi. split; [done|]. split; [done|]. left. split.
    + eapply Hlt; [|done]. lia.
    + by apply Hle.
Qed.

(** Edges that [cut] accepts, more than two of them, increase strictly. *)
Lemma monotonic_sorted bins : monotonic bins = true → StronglySorted Qle bins.
Proof.
  induction bins as [|b1 [|b2 bins] IH]; intros Hm.
  - constructor.
  - repeat constructor.
  - cbn [monotonic] in Hm. apply andb_true_iff in Hm as [H12 Hm].
    apply Qle_bool_iff in H12. specialize (IH Hm).
    constructor; [done|]. constructor; [done|].
    apply StronglySorted_cons in IH as [Hall _].
    eapply Forall_impl; [exact Hall|]. intros b Hb. by apply (Qle_trans _ b2).
Qed.

Lemma unique_edges_sorted bins :
  StronglySorted Qle bins → unique_edges bins = true → StronglySorted Qlt bins.
Proof.
  induction 1 as [|b bins Hs IH Hall]; intros Hu; [constructor|].
  cbn [unique_edges] in Hu. apply andb_true_iff in Hu as [Hb Hu].
  constructor; [by apply IH|].
  rewrite forallb_forall in Hb. apply Forall_forall. intros b' Hb'.
  assert (Hle : (b <= b')%Q) by (by eapply Forall_forall in Hall).
  assert (Hne : ¬ (b == b')%Q).
  { intros Heq%Qeq_bool_iff. specialize (Hb b'). rewrite Heq in Hb.
    assert (false = true) by (apply Hb; by apply list_elem_of_In). done. }
  apply Qle_lteq in Hle as [?|?]; [done|contradiction].
Qed.

Lemma edges_increase bins :
  monotonic bins = true → edges_ok bins = true → length bins ≠ 2%nat →
  StronglySorted Qlt bins.
Proof.
  intros Hm He Hlen. unfold edges_ok in He. apply orb_true_iff in He as [He|He].
  - apply unique_edges_sorted; [by apply monotonic_sorted|done].
  - by apply bool_decide_eq_true in He.
Qed.

(** ** The deciles of the reference table *)

(** Every index of the reference table falls in one of the ten bins. *)
Lemma reference_index_in_a_bin (zs : list Z) bins z :
  spans bins zs → z ∈ zs →
  ∃ d, bin_index bins true (inject_Z z) = Some d ∧ (1 ≤ d ≤ 10)%nat.
Proof.
  intros (Hlen & lo & hi & e0 & e10 & _ & _ & Hrange & H0 & He0 & H10 & He10) Hz.
  destruct (Hrange z Hz) as [Hlo Hhi].
  assert (Hhd : hd 0%Q bins = e0) by (destruct bins; [done|by injection H0]).
  unfold bin_index. rewrite Hhd, Hlen. cbn [andb].
  destruct (Qeq_bool (inject_Z z) e0) eqn:Heq.
  - exists 1%nat. rewrite decide_False by lia. split; [done|lia].
  - assert (Hle : (searchsorted bins (inject_Z z) ≤ 10)%nat).
    { eapply searchsorted_le; [done|]. apply Qle_bool_iff.
      rewrite He10. by rewrite <-Zle_Qle. }
    assert (Hge : (1 ≤ searchsorted bins (inject_Z z))%nat).
    { destruct bins as [|b bins]; [done|]. injection H0 as ->. simpl.
      destruct (Qle_bool (inject_Z z) e0) eqn:Hb; [|lia].
      apply Qle_bool_iff in Hb. rewrite He0 in Hb. rewrite <-Zle_Qle in Hb.
      assert (z = lo) as -> by lia.
      assert (Qeq_bool (inject_Z lo) e0 = true); [|congruence].
      apply Qeq_bool_iff. by symmetry. }
    exists (searchsorted bins (inject_Z z)).
    rewrite decide_False by lia. split; [done|lia].
Qed.

Lemma decile_cell_reference (zs : list Z) bins z :
  spans bins zs → z ∈ zs →
  ∃ d, bin_index bins true (inject_Z z) = Some d ∧ (1 ≤ d ≤ 10)%nat ∧
       decile_cell bins (VInt z) = VInt (Z.of_nat d).
Proof.
  intros Hq Hz. destruct (reference_index_in_a_bin _ _ _ Hq Hz) as (d & Hd & Hr).
  exists d. split; [done|]. split; [done|].
  unfold decile_cell, cut_cell. simpl. rewrite Hd. simpl. f_equal. lia.
Qed.

(** ** The quantiles in exact arithmetic *)

Lemma sorted_lower (l : list Z) x :
  StronglySorted Z.le l → x ∈ l → l !!! 0%nat ≤ x.
Proof.
  destruct l as [|a l]; [by intros _ ?%elem_of_nil|].
  intros [Hall _]%StronglySorted_cons [->|Hx]%elem_of_cons; simpl; [lia|].
  by eapply Forall_forall in Hall.
Qed.

Lemma sorted_upper (l : list Z) x :
  StronglySorted Z.le l → x ∈ l → x ≤ l !!! (length l - 1)%nat.
Proof.
  destruct l as [|y l _] using rev_ind; [by intros _ ?%elem_of_nil|].
  intros (Hle & _ & _)%StronglySorted_app Hx.
  rewrite length_app; simpl.
  replace (length l + 1 - 1)%nat with (length l) by lia.
  rewrite (list_lookup_total_correct _ _ y) by (by apply list_lookup_middle).
  apply elem_of_app in Hx as [Hx|Hx%list_elem_of_singleton]; [|lia].
  apply Hle; [done|by left].
Qed.

Lemma exact_quantile_first sorted q :
  exact_quantile sorted q 0 = (Z.pos q * sorted !!! 0%nat) # q.
Proof.
  unfold exact_quantile. cbn [Z.of_nat]. rewrite Z.mul_0_l, Zdiv_0_l, Zmod_0_l.
  rewrite decide_True by done. change (Z.to_nat 0) with 0%nat. f_equal. lia.
Qed.

Lemma exact_quantile_last sorted q :
  exact_quantile sorted q (Pos.to_nat q)
  = (Z.pos q * sorted !!! (length sorted - 1)%nat) # q.
Proof.
  unfold exact_quantile.
  assert (Hpos : Z.of_nat (Pos.to_nat q) * (Z.of_nat (length sorted) - 1)
                 = (Z.of_nat (length sorted) - 1) * Z.pos q) by lia.
  rewrite Hpos, Z.div_mul, Z.mod_mul by lia.
  rewrite decide_True by done.
  replace (Z.to_nat (Z.of_nat (length sorted) - 1)) with (length sorted - 1)%nat by lia.
  f_equal. lia.
Qed.

Lemma Qeq_scaled (q : positive) (a : Z) : ((Z.pos q * a) # q == inject_Z a)%Q.
Proof. unfold Qeq; simpl. lia. Qed.

(** The edges of [exact_qcut] go from the least to the greatest of the
    integers it is given. *)
Lemma exact_qcut_spans (zs : list Z) bins :
  exact_qcut (VInt <$> zs) 10 = Ok bins → spans bins zs.
Proof.
  unfold exact_qcut.
  rewrite (traverse_total _ (λ v, match v with VInt z => Some z | _ => None end));
    [|apply Forall_fmap, Forall_true; by intros z].
  cbn [bind].
  assert (Hzs : omap id ((λ v, match v with VInt z => Some z | _ => None end)
                         <$> (VInt <$> zs)) = zs).
  { induction zs as [|z zs IH]; [done|]. simpl. f_equal. exact IH. }
  rewrite Hzs. clear Hzs.
  remember (merge_sort Z.le zs) as sorted eqn:Hs.
  remember (exact_quantile sorted 10 <$> seq 0 (S (Pos.to_nat 10))) as edges eqn:He.
  destruct (decide _) as [|Hne]; [done|]. destruct (edges_ok _); [|done]. intros [= <-].
  assert (Hperm : sorted ≡ₚ zs) by (rewrite Hs; apply merge_sort_Permutation).
  assert (Hsorted : StronglySorted Z.le sorted).
  { rewrite Hs. apply StronglySorted_merge_sort; [apply _|apply Z.le_total]. }
  assert (Hlen : (0 < length sorted)%nat).
  { destruct sorted; [|simpl; lia]. by apply Permutation_nil_l in Hperm. }
  split; [by rewrite He, length_fmap, length_seq|].
  exists (sorted !!! 0%nat), (sorted !!! (length sorted - 1)%nat),
    ((10 * sorted !!! 0%nat) # 10), ((10 * sorted !!! (length sorted - 1)%nat) # 10).
  split.
  { rewrite <-Hperm. apply list_elem_of_lookup_total_2. lia. }
  split.
  { rewrite <-Hperm. apply list_elem_of_lookup_total_2. lia. }
  split.
  { intros z Hz. rewrite <-Hperm in Hz.
    split; [by apply sorted_lower|by apply sorted_upper]. }
  split.
  { rewrite He. cbn [seq fmap list_fmap lookup list_lookup].
    by rewrite exact_quantile_first. }
  split; [apply (Qeq_scaled 10)|].
  split; [|apply (Qeq_scaled 10)].
  assert (Hl : seq 0 (S (Pos.to_nat 10)) !! 10%nat = Some (Pos.to_nat 10)) by reflexivity.
  by rewrite He, list_lookup_fmap, Hl, <-exact_quantile_last.
Qed.

(** ** Stage 8 row by row *)

Lemma add_age_brackets_row df out i r :
  add_age_brackets df = Ok out →
  rows df !! i = Some r →
  ∃ r', rows out !! i = Some r' ∧
    cell "Age bracket" r' =
      cut_cell age_bins (Labels age_labels) true (numeric_view (cell "Age" r)) ∧
    r' !! "Age" = None ∧
    ∀ c, c ≠ "Age" → c ≠ "Age bracket" → r' !! c = r !! c.
Proof.
  intros Hok Hr. apply add_age_brackets_Ok in Hok as (_ & _ & ->). eexists. split.
  { simpl. by rewrite list_lookup_fmap, Hr. }
  split; [|split].
  - unfold cell at 1. by rewrite lookup_delete_ne, lookup_insert_eq.
  - apply lookup_delete_eq.
  - intros c ? ?. by rewrite lookup_delete_ne, lookup_insert_ne.
Qed.

Lemma add_age_brackets_columns df out :
  add_age_brackets df = Ok out →
  ("Age" ∉ columns out) ∧ "Age bracket" ∈ columns out ∧
  ∀ c, c ∈ columns out → c ∈ columns df ∨ c = "Age bracket".
Proof.
  intros Hok. apply add_age_brackets_Ok in Hok as (_ & _ & ->); simpl. repeat split.
  - rewrite list_elem_of_filter. naive_solver.
  - apply list_elem_of_filter. split; [done|].
    destruct (decide _); [done|]. apply elem_of_app. right. by apply list_elem_of_singleton.
  - intros c [_ Hc]%list_elem_of_filter. destruct (decide _); [by left|].
    apply elem_of_app in Hc as [?|?%list_elem_of_singleton]; auto.
Qed.

(** ** Columns and row counts along the run *)

Lemma convert_postcodes_to_lsoa_adds ref :
  adds_only added_columns (convert_postcodes_to_lsoa ref).
Proof.
  intros df out c Hok Hc.
  apply convert_postcodes_to_lsoa_Ok in Hok as (_ & _ & Hcols).
  destruct (Hcols c Hc) as [?|Hin]; [by left|right].
  rewrite !elem_of_cons, elem_of_nil in Hin. unfold added_columns.
  rewrite !elem_of_cons. naive_solver.
Qed.

Lemma convert_lsoa_to_imd_decile_adds ref qcut :
  adds_only added_columns (convert_lsoa_to_imd_decile ref qcut).
Proof.
  intros df out c Hok Hc.
  apply convert_lsoa_to_imd_decile_Ok in Hok as (_ & _ & _ & bins & _ & _ & _ & ->).
  unfold decile_frame in Hc; cbn [columns] in Hc.
  apply list_elem_of_filter in Hc as [_ Hc]. apply list_elem_of_filter in Hc as [_ Hc].
  assert (c ∈ columns df ∨ c = IMD ∨ c = IMD_DECILE) as [?|[-> | ->]].
  { destruct (decide _); rewrite !elem_of_app, !list_elem_of_singleton in Hc; tauto. }
  - by left.
  - right. unfold added_columns. rewrite !elem_of_cons. tauto.
  - right. unfold added_columns. rewrite !elem_of_cons. tauto.
Qed.

Lemma replace_hospital_with_random_number_inv shuffle df out :
  replace_hospital_with_random_number shuffle df = Ok out →
  "Hospital" ∈ columns df ∧ nrows out = nrows df ∧
  ∀ c, c ∈ columns out → c ∈ columns df ∨ c = "Hospital ID".
Proof.
  intros (Hcol & _ & ->)%replace_hospital_with_random_number_Ok.
  split; [done|]. split; [apply nrows_fmap_rows|].
  cbn [columns]. intros c [_ Hc]%list_elem_of_filter.
  destruct (decide _); [by left|].
  apply elem_of_app in Hc as [?|Hc]; [by left|].
  apply list_elem_of_singleton in Hc. by right.
Qed.

Lemma replace_hospital_with_random_number_adds shuffle :
  adds_only added_columns (replace_hospital_with_random_number shuffle).
Proof.
  intros df out c Hok Hc.
  apply replace_hospital_with_random_number_inv in Hok as (_ & _ & Hcols).
  destruct (Hcols c Hc) as [?| ->]; [by left|right].
  unfold added_columns. rewrite !elem_of_cons. tauto.
Qed.

Lemma add_age_brackets_adds : adds_only added_columns add_age_brackets.
Proof.
  intros df out c Hok Hc.
  apply add_age_brackets_columns in Hok as (_ & _ & Hcols).
  destruct (Hcols c Hc) as [?| ->]; [by left|right].
  unfold added_columns. rewrite !elem_of_cons. tauto.
Qed.

Lemma stages_add_only ref qcut shuffle to_datetime :
  Forall (adds_only added_columns) (stages ref qcut shuffle to_datetime).
Proof.
  unfold stages. repeat apply Forall_cons_2; try apply Forall_nil_2.
  - eapply adds_only_weaken; [|apply remove_nhs_numbers_adds]. set_solver.
  - apply convert_postcodes_to_lsoa_adds.
  - apply convert_lsoa_to_imd_decile_adds.
  - apply replace_hospital_with_random_number_adds.
  - intros df out c Hok. by apply put_time_in_4_hour_bins_not_Ok in Hok.
  - intros df out c Hok Hc.
    apply remove_non_male_or_female_Ok in Hok as [_ ->]. by left.
  - apply add_age_brackets_adds.
Qed.

Lemma run_adds_only names fs :
  Forall (adds_only names) fs → adds_only names (run fs).
Proof.
  induction 1 as [|f fs Hf _ IH]; intros df out c; simpl.
  - intros [= <-] ?. by left.
  - intros Hok Hc. apply bind_Ok in Hok as (df1 & Hf1 & Hrun).
    destruct (IH _ _ _ Hrun Hc) as [Hc1|?]; [|by right].
    by eapply Hf.
Qed.

(** ** The rows stage 4 returns *)

(** The cells of a row that stage 4 makes. *)
Lemma decile_row_cells bins cols l p :
  IMD ∉ cols →
  cell IMD_DECILE (decile_row bins cols l (lsoa_imd_row p))
    = decile_cell bins (VInt (rec_imd p)) ∧
  ∀ c, c ∈ cols → c ≠ LSOA → c ≠ IMD_DECILE →
    cell c (decile_row bins cols l (lsoa_imd_row p)) = cell c l.
Proof.
  intros Himd. unfold decile_row. split.
  - unfold cell at 1. rewrite !lookup_delete_ne by done. rewrite lookup_insert_eq. simpl.
    rewrite cell_IMD_merged by done. by rewrite (proj2 (cell_lsoa_imd_row p)).
  - intros c Hc Hl Hd. unfold cell at 1.
    assert (c ≠ IMD) by (by intros ->).
    rewrite !lookup_delete_ne by done. rewrite lookup_insert_ne by done.
    by rewrite (lookup_merge_row_left cols [IMD]).
Qed.

Lemma decile_rows_elem ref bins cols l r' :
  IMD ∉ cols →
  r' ∈ decile_rows ref bins cols l →
  ∃ p, p ∈ ref ∧ cell LSOA l = VStr (rec_lsoa p) ∧
    cell IMD_DECILE r' = decile_cell bins (VInt (rec_imd p)) ∧
    ∀ c, c ∈ cols → c ≠ LSOA → c ≠ IMD_DECILE → cell c r' = cell c l.
Proof.
  intros Himd. unfold decile_rows.
  intros (r & -> & Hr)%list_elem_of_fmap.
  apply list_elem_of_filter in Hr as [Hkey Hr].
  apply drop_duplicates_rows_elem in Hr as [Hr _].
  apply list_elem_of_fmap in Hr as (p & -> & Hp).
  exists p. split; [done|].
  rewrite (proj1 (cell_lsoa_imd_row p)) in Hkey. split; [done|].
  by apply decile_row_cells.
Qed.

(** ** The rows of the two joins *)

Lemma filter_fmap_list {A B} (P : B → Prop) `{∀ y, Decision (P y)} (f : A → B)
    (l : list A) :
  filter P (f <$> l) = f <$> filter (λ x, P (f x)) l.
Proof.
  induction l as [|x l IH]; [done|].
  rewrite fmap_cons, !filter_cons.
  destruct (decide (P (f x))); by rewrite ?fmap_cons, IH.
Qed.

(** A join that finds one row at most for each row keeps the rows it finds
    one for. *)
Lemma bind_option_list {A B C} (sel : A → option C) (g : A → C → B) (d : A → B)
    (l : list A) :
  l ≫= (λ x, g x <$> option_list (sel x))
  = (λ x, from_option (g x) (d x) (sel x)) <$> filter (λ x, is_Some (sel x)) l.
Proof.
  induction l as [|x l IH]; [done|].
  change ((x :: l) ≫= ?f) with (f x ++ l ≫= f)%list. cbv beta.
  rewrite IH. destruct (sel x) as [c|] eqn:Hx.
  - rewrite filter_cons_True by (rewrite Hx; by eexists).
    rewrite fmap_cons, Hx. done.
  - rewrite filter_cons_False by (rewrite Hx; by intros [? ?]). done.
Qed.

Lemma Forall2_fmap_self {A B} (R : A → B → Prop) (f : A → B) (l : list A) :
  (∀ x, x ∈ l → R x (f x)) → Forall2 R l (f <$> l).
Proof.
  induction l as [|x l IH]; intros H; [constructor|].
  rewrite fmap_cons. constructor; [apply H; left|].
  apply IH. intros y Hy. apply H. by right.
Qed.

(** The reference rows that stage 3 joins to a row whose postcode cell is
    [v]: one row at most, that of the first line with this postcode. *)
Lemma postcode_matches ref v :
  NoDup (rec_postcode <$> ref) →
  filter (λ r, cell "Postcode" r = v) (postcode_lsoa_row <$> ref) =
  postcode_lsoa_row <$> option_list (head (filter (λ p, VStr (rec_postcode p) = v) ref)).
Proof.
  intros Hnd. rewrite filter_fmap_list. f_equal.
  rewrite (list_filter_iff _ (λ p, VStr (rec_postcode p) = v))
    by (intros p; by rewrite (proj1 (cell_postcode_lsoa_row p))).
  assert (Hlen : (length (filter (λ p, VStr (rec_postcode p) = v) ref) ≤ 1)%nat).
  { apply (length_filter_key (λ p, VStr (rec_postcode p))).
    rewrite (list_fmap_compose rec_postcode VStr). apply NoDup_fmap_2; [|done].
    by intros ?? [= ?]. }
  destruct (filter _ ref) as [|p [|q l]]; simpl in *; [done|done|lia].
Qed.

(** The reference rows that stage 4 joins to a row whose small-area cell
    is [v], when every small area has one index: one row at most, that of
    the first line with this small area. *)
Lemma area_matches ref v :
  (∀ p q, p ∈ ref → q ∈ ref → rec_lsoa p = rec_lsoa q → rec_imd p = rec_imd q) →
  filter (λ r, cell LSOA r = v) (drop_duplicates_rows [] (lsoa_imd_row <$> ref)) =
  lsoa_imd_row <$> option_list (head (filter (λ p, VStr (rec_lsoa p) = v) ref)).
Proof.
  intros Hfun.
  pose proof (length_filter_key (cell LSOA) v _ (reference_areas_NoDup ref Hfun)) as Hlen.
  destruct (head (filter (λ p, VStr (rec_lsoa p) = v) ref)) as [p|] eqn:Hh; simpl.
  - apply head_Some_elem_of, list_elem_of_filter in Hh as [Hv Hp].
    assert (Hin : lsoa_imd_row p ∈
              filter (λ r, cell LSOA r = v) (drop_duplicates_rows [] (lsoa_imd_row <$> ref))).
    { apply list_elem_of_filter. split; [by rewrite (proj1 (cell_lsoa_imd_row p))|].
      apply drop_duplicates_rows_complete; [by apply list_elem_of_fmap_2|apply not_elem_of_nil]. }
    destruct (filter _ (drop_duplicates_rows _ _)) as [|r [|r' rs]]; simpl in Hlen.
    + by apply elem_of_nil in Hin.
    + by apply list_elem_of_singleton in Hin as ->.
    + lia.
  - apply filter_none. intros r [Hr _]%drop_duplicates_rows_elem Hv.
    apply list_elem_of_fmap in Hr as (p & -> & Hp).
    rewrite (proj1 (cell_lsoa_imd_row p)) in Hv.
    assert (Hin : p ∈ filter (λ p, VStr (rec_lsoa p) = v) ref)
      by (by apply list_elem_of_filter).
    destruct (filter _ ref); [by apply elem_of_nil in Hin|done].
Qed.

Lemma with_area_cells ref cols l :
  LSOA ∉ cols →
  is_Some (area_of_postcode ref (cell "Postcode" l)) →
  cell LSOA (with_area ref cols l)
    = from_option VStr NaN (area_of_postcode ref (cell "Postcode" l)) ∧
  with_area ref cols l !! "Postcode" = None ∧
  ∀ c, c ∈ cols → c ≠ "Postcode" → cell c (with_area ref cols l) = cell c l.
Proof.
  intros Hlsoa Hs. unfold with_area, area_of_postcode in *.
  destruct (head _) as [p|]; [|by destruct Hs]. simpl.
  split; [|split].
  - unfold cell at 1. rewrite lookup_delete_ne by done.
    rewrite (lookup_merge_row_right cols [LSOA]); [|done|by left].
    apply cell_postcode_lsoa_row.
  - apply lookup_delete_eq.
  - intros c Hc Hne. unfold cell at 1. rewrite lookup_delete_ne by done.
    by rewrite (lookup_merge_row_left cols [LSOA]).
Qed.

(** What stage 3 computes on a frame with a postcode column that can be
    joined with that of the reference table, and without a column of
    small areas, when every postcode has one line of the table. *)
Lemma convert_postcodes_to_lsoa_eval ref df :
  "Postcode" ∈ columns df → LSOA ∉ columns df →
  NoDup (rec_postcode <$> ref) →
  merge_keys_error (cell "Postcode" <$> rows df)
    (cell "Postcode" <$> (postcode_lsoa_row <$> ref)) = None →
  convert_postcodes_to_lsoa ref df =
  Ok {| columns := (filter (λ c, c ≠ "Postcode") (columns df) ++ [LSOA])%list;
        rows := with_area ref (columns df)
                <$> filter (λ l, is_Some (area_of_postcode ref (cell "Postcode" l)))
                      (grouped "Postcode" (rows df)) |}.
Proof.
  intros Hcol Hlsoa Hnd Hkeys. unfold convert_postcodes_to_lsoa.
  rewrite select_postcode_lsoa; cbn [bind].
  rewrite merge_no_overlap; cbn [columns rows bind].
  2: done. 2: by left.
  2: { intros c Hc Hr. apply elem_of_cons in Hr as [->|Hr]; [done|].
       apply list_elem_of_singleton in Hr as ->. done. }
  2: exact Hkeys.
  rewrite drop_column_present by (cbn [columns]; apply elem_of_app; by left).
  cbn [bind columns rows]. f_equal. apply (f_equal2 mkDataFrame).
  { rewrite filter_app. f_equal. }
  change (filter (λ c, c ≠ "Postcode") ["Postcode"; LSOA]) with [LSOA].
  change ((λ c : string, (c, c)) <$> [LSOA]) with [(LSOA, LSOA)].
  rewrite fmap_bind.
  rewrite (list_bind_ext _
    (λ l, (λ p, delete "Postcode"
             (merge_row ((λ c, (c, c)) <$> columns df) [(LSOA, LSOA)] l (postcode_lsoa_row p)))
          <$> option_list (head (filter (λ p, VStr (rec_postcode p) = cell "Postcode" l) ref)))
    _ (grouped "Postcode" (rows df))); [|intros l|done].
  2: { rewrite postcode_matches by done. by rewrite <-!list_fmap_compose. }
  rewrite (bind_option_list _ _ (λ l, l)).
  rewrite (list_filter_iff _ (λ l, is_Some (area_of_postcode ref (cell "Postcode" l))))
    by (intros l; unfold area_of_postcode; by rewrite fmap_is_Some).
  done.
Qed.

Lemma postcode_keys_strings ref :
  Forall is_string (cell "Postcode" <$> (postcode_lsoa_row <$> ref)).
Proof.
  apply Forall_fmap, Forall_fmap, Forall_true. intros p. simpl.
  by rewrite (proj1 (cell_postcode_lsoa_row p)).
Qed.

(** The frame of stage 3, whenever it returns one. *)
Lemma convert_postcodes_to_lsoa_rows ref df out :
  NoDup (rec_postcode <$> ref) → LSOA ∉ columns df →
  convert_postcodes_to_lsoa ref df = Ok out →
  out = {| columns := (filter (λ c, c ≠ "Postcode") (columns df) ++ [LSOA])%list;
           rows := with_area ref (columns df)
                   <$> filter (λ l, is_Some (area_of_postcode ref (cell "Postcode" l)))
                         (grouped "Postcode" (rows df)) |}.
Proof.
  intros Hnd Hlsoa Hok. pose proof Hok as H. unfold convert_postcodes_to_lsoa in H.
  rewrite select_postcode_lsoa in H; cbn [bind] in H.
  apply bind_Ok in H as (merged & Hmerge & _).
  pose proof (merge_keys_checked _ _ _ _ Hmerge) as Hkeys. cbn [rows] in Hkeys.
  apply merge_Ok in Hmerge as [Hcol _].
  rewrite convert_postcodes_to_lsoa_eval in Hok by done. congruence.
Qed.

Lemma with_decile_cells ref bins cols l :
  IMD ∉ cols →
  is_Some (index_of_area ref (cell LSOA l)) →
  cell IMD_DECILE (with_decile ref bins cols l)
    = decile_cell bins (from_option VInt NaN (index_of_area ref (cell LSOA l))) ∧
  ∀ c, c ∈ cols → c ≠ LSOA → c ≠ IMD_DECILE → cell c (with_decile ref bins cols l) = cell c l.
Proof.
  intros Himd Hs. unfold with_decile, index_of_area in *.
  destruct (head _) as [p|]; [|by destruct Hs]. simpl.
  by apply decile_row_cells.
Qed.

(** The rows of the frame of stage 4 when every small area has one
    index. *)
Lemma decile_frame_rows ref bins df :
  (∀ p q, p ∈ ref → q ∈ ref → rec_lsoa p = rec_lsoa q → rec_imd p = rec_imd q) →
  rows (decile_frame ref bins df)
  = with_decile ref bins (columns df)
    <$> filter (λ l, is_Some (index_of_area ref (cell LSOA l))) (grouped LSOA (rows df)).
Proof.
  intros Hfun. unfold decile_frame; cbn [rows].
  rewrite (list_bind_ext _
    (λ l, (λ p, decile_row bins (columns df) l (lsoa_imd_row p))
          <$> option_list (head (filter (λ p, VStr (rec_lsoa p) = cell LSOA l) ref)))
    _ (grouped LSOA (rows df))); [|intros l|done].
  2: { unfold decile_rows. rewrite area_matches by done. by rewrite <-!list_fmap_compose. }
  rewrite (bind_option_list _ _ (λ l, l)).
  rewrite (list_filter_iff _ (λ l, is_Some (index_of_area ref (cell LSOA l))))
    by (intros l; unfold index_of_area; by rewrite fmap_is_Some).
  done.
Qed.

(** ** The identifiers along the run *)

Lemma identifiers_not_added c :
  c = "NHS number" ∨ c = "Postcode" → c ∉ added_columns.
Proof.
  intros [->| ->]; unfold added_columns, LSOA, IMD, IMD_DECILE;
    rewrite !not_elem_of_cons; repeat split; try discriminate; apply not_elem_of_nil.
Qed.

Lemma adds_only_absent names f df out c :
  adds_only names f → f df = Ok out → c ∉ columns df → c ∉ names → c ∉ columns out.
Proof. intros Hf Hok Hdf Hn Hout. destruct (Hf df out c Hok Hout); done. Qed.

Lemma take_stages n ref qcut shuffle to_datetime :
  (2 ≤ n)%nat →
  take n (stages ref qcut shuffle to_datetime) =
  remove_nhs_numbers :: convert_postcodes_to_lsoa ref ::
    take (n - 2) (drop 2 (stages ref qcut shuffle to_datetime)).
Proof. intros Hn. destruct n as [|[|n]]; [lia..|]. simpl. by rewrite Nat.sub_0_r. Qed.

(** ** A missing column *)

Lemma merge_missing_key left right key :
  key ∉ columns left → merge left right key = Raise (KeyError key).
Proof.
  intros ?. unfold merge. destruct (decide _); [|done]. by destruct (decide _).
Qed.

(** ** Row counts *)

Lemma one_index_per_area_spec ref :
  one_index_per_area ref →
  ∀ p q, p ∈ ref → q ∈ ref → rec_lsoa p = rec_lsoa q → rec_imd p = rec_imd q.
Proof.
  unfold one_index_per_area. rewrite Forall_forall. intros H p q Hp Hq.
  specialize (H p Hp). rewrite Forall_forall in H. by apply H.
Qed.

Lemma stage_nrows ref qcut shuffle to_datetime stage df out :
  NoDup (rec_postcode <$> ref) →
  one_index_per_area ref →
  stage ∈ stages ref qcut shuffle to_datetime →
  stage df = Ok out →
  (nrows out ≤ nrows df)%nat.
Proof.
  intros Hnd Hfun Hin Hok. unfold stages in Hin.
  rewrite !elem_of_cons, elem_of_nil in Hin.
  destruct Hin as [->|[->|[->|[->|[->|[->|[->|[]]]]]]]].
  - apply remove_nhs_numbers_Ok in Hok as [_ ->]. by rewrite nrows_fmap_rows.
  - by eapply convert_postcodes_to_lsoa_nrows.
  - eapply convert_lsoa_to_imd_decile_nrows; [|done]. by apply one_index_per_area_spec.
  - apply replace_hospital_with_random_number_inv in Hok as (_ & -> & _). done.
  - by apply put_time_in_4_hour_bins_not_Ok in Hok.
  - apply remove_non_male_or_female_Ok in Hok as [_ ->].
    unfold nrows; cbn [rows]. apply length_filter.
  - apply add_age_brackets_Ok in Hok as (_ & _ & ->). by rewrite nrows_fmap_rows.
Qed.

(** ** The temporal stage and the whole run *)

Lemma deidentify_not_Ok ref qcut shuffle to_datetime df out :
  deidentify ref qcut shuffle to_datetime df ≠ Ok out.
Proof.
  unfold deidentify, load_nhs_london_ae_data. cbn [bind]. intros H. inv_bind H.
  by eapply put_time_in_4_hour_bins_not_Ok.
Qed.

(** Decides a closed decidable proposition by evaluation. *)
Ltac by_evaluation := apply (bool_decide_unpack _); vm_compute; exact I.

(** * The statements of the specification *)

(** C1. The identifier-removal stage returns the frame it is given without
    the column of NHS numbers, whose cells it deletes from every row, and
    with as many rows; the geographic stage returns a frame without the
    postcode column; no stage adds either of the two columns to a frame
    that lacks it, and so the frame that any run of the first two stages or
    more returns has neither. (A run of more than four stages returns no
    frame, stage 6 raising a [NameError]: see C2 and C4.) *)
Theorem identifiers_are_removed ref qcut shuffle to_datetime df :
  "NHS number" ∈ columns df →
  ∃ df1,
    remove_nhs_numbers df = Ok df1 ∧
    ("NHS number" ∉ columns df1) ∧
    rows df1 = (delete "NHS number" <$> rows df) ∧
    nrows df1 = nrows df ∧
    (∀ df2, convert_postcodes_to_lsoa ref df1 = Ok df2 → "Postcode" ∉ columns df2) ∧
    (∀ stage c df' out,
       stage ∈ stages ref qcut shuffle to_datetime →
       c = "NHS number" ∨ c = "Postcode" →
       stage df' = Ok out → c ∉ columns df' → c ∉ columns out) ∧
    (∀ n out,
       (2 ≤ n)%nat →
       run (take n (stages ref qcut shuffle to_datetime)) df = Ok out →
       ("NHS number" ∉ columns out) ∧ ("Postcode" ∉ columns out)).
Proof.
  intros Hcol.
  pose proof (stages_add_only ref qcut shuffle to_datetime) as Hall.
  assert (Hstage : ∀ stage c df' out,
    stage ∈ stages ref qcut shuffle to_datetime →
    c = "NHS number" ∨ c = "Postcode" →
    stage df' = Ok out → c ∉ columns df' → c ∉ columns out).
  { intros stage c df' out Hin Hc Hok Hdf.
    rewrite Forall_forall in Hall.
    eapply adds_only_absent; [by apply Hall|done..|by apply identifiers_not_added]. }
  eexists. split; [by apply remove_nhs_numbers_Ok|]. cbn [columns rows].
  split; [rewrite list_elem_of_filter; naive_solver|].
  split; [done|]. split; [apply nrows_fmap_rows|].
  split; [intros df2 Hok; by apply convert_postcodes_to_lsoa_Ok in Hok as (_ & ? & _)|].
  split; [done|].
  intros n out Hn. rewrite take_stages by done. cbn [run].
  intros Hrun. inv_bind Hrun.
  apply remove_nhs_numbers_Ok in Hstep as [_ ->].
  assert (Hrest : adds_only added_columns
            (run (take (n - 2) (drop 2 (stages ref qcut shuffle to_datetime))))).
  { apply run_adds_only, Forall_take, Forall_drop, Hall. }
  split.
  - eapply adds_only_absent; [apply Hrest|done| |apply identifiers_not_added; by left].
    eapply (Hstage (convert_postcodes_to_lsoa ref)); [|by left|done|].
    + unfold stages. set_solver.
    + cbn [columns]. rewrite list_elem_of_filter. naive_solver.
  - eapply adds_only_absent; [apply Hrest|done| |apply identifiers_not_added; by right].
    by apply convert_postcodes_to_lsoa_Ok in Hstep0 as (_ & ? & _).
Qed.

(** The three visits of the scenario, run through the first four stages. *)
Lemma identifiers_are_removed_witness :
  "NHS number" ∈ columns three_visits ∧
  ∃ df1, remove_nhs_numbers three_visits = Ok df1 ∧
    nrows df1 = nrows three_visits ∧
    ∀ out, run (take 4 (stages eleven_postcodes exact_qcut reverse iso_to_datetime)) three_visits = Ok out →
      ("NHS number" ∉ columns out) ∧ ("Postcode" ∉ columns out).
Proof.
  assert (H : "NHS number" ∈ columns three_visits) by by_evaluation.
  split; [exact H|].
  destruct (identifiers_are_removed eleven_postcodes exact_qcut reverse iso_to_datetime three_visits H)
    as (df1 & Hok & _ & _ & Hn & _ & _ & Hrun).
  exists df1. split; [exact Hok|]. split; [exact Hn|].
  intros out. apply Hrun. lia.
Defined.

(** C2. The run on the three visits of the scenario writes no output: no
    run does, since stage 6 never returns, and this one ends with the
    [NameError] of stage 6. The four stages before it leave the visits in
    the order of their postcodes, the two from the first postcode and then
    the third one, with the deciles 2, 2 and 9 and two identifiers for the
    two hospitals; the stages after it, called on that frame, would keep
    the two rows of the brackets "0-17" and "25-44". *)
Theorem scenario_run_writes_nothing :
  (∀ ref qcut shuffle to_datetime df,
     written (main ref qcut shuffle to_datetime df) = None) ∧
  main eleven_postcodes exact_qcut reverse iso_to_datetime three_visits
    = {| written := None; raised := Some (NameError "nhs_df") |} ∧
  (∃ df4 a b,
     run (take 4 (stages eleven_postcodes exact_qcut reverse iso_to_datetime)) three_visits
       = Ok df4 ∧
     (cell "Age" <$> rows df4) = [VInt 10; VInt 90; VInt 30] ∧
     (cell IMD_DECILE <$> rows df4) = [VInt 2; VInt 2; VInt 9] ∧
     (cell "Hospital ID" <$> rows df4) = [VInt a; VInt a; VInt b] ∧
     a ≠ b ∧ 1 ≤ a ≤ 2 ∧ 1 ≤ b ≤ 2) ∧
  (∃ out a b,
     run (stages_without_time_bins eleven_postcodes exact_qcut reverse) three_visits
       = Ok out ∧
     nrows out = 2%nat ∧
     (cell "Age bracket" <$> rows out) = [VStr "0-17"; VStr "25-44"] ∧
     (cell IMD_DECILE <$> rows out) = [VInt 2; VInt 9] ∧
     (cell "Hospital ID" <$> rows out) = [VInt a; VInt b] ∧
     a ≠ b ∧ 1 ≤ a ≤ 2 ∧ 1 ≤ b ≤ 2).
Proof.
  split.
  { intros ref qcut shuffle to_datetime df. unfold main.
    destruct (deidentify _ _ _ _ _) eqn:H; [|done]. by apply deidentify_not_Ok in H. }
  split; [by vm_compute|].
  split; eexists _, 2, 1; (split; [by vm_compute|]); repeat split; by vm_compute.
Qed.

(** C3, as amended. On a frame whose "Age" column is numeric, stage 8 cuts
    the ages at the edges 0, 18, 25, 45, 65, 85 and 150: the age 0 and every
    age strictly between two consecutive edges get the bracket labelled for
    these edges, the ages above 85 up to 150 included get the bracket
    labelled "85-", every row stays at its position with its other cells
    unchanged, and the column "Age" is dropped. *)
Theorem age_brackets_between_edges (df : DataFrame) :
  "Age" ∈ columns df →
  Forall is_numeric (cell "Age" <$> rows df) →
  age_bins = inject_Z <$> [0; 18; 25; 45; 65; 85; 150] ∧
  ∃ out, add_age_brackets df = Ok out ∧
    ("Age" ∉ columns out) ∧ "Age bracket" ∈ columns out ∧
    nrows out = nrows df ∧
    ∀ i r a, rows df !! i = Some r → cell "Age" r = VInt a →
      ∃ r', rows out !! i = Some r' ∧
        r' !! "Age" = None ∧
        (∀ c, c ≠ "Age" → c ≠ "Age bracket" → r' !! c = r !! c) ∧
        (0 ≤ a < 18 → cell "Age bracket" r' = VStr "0-17") ∧
        (18 < a < 25 → cell "Age bracket" r' = VStr "18-24") ∧
        (25 < a < 45 → cell "Age bracket" r' = VStr "25-44") ∧
        (45 < a < 65 → cell "Age bracket" r' = VStr "45-64") ∧
        (65 < a < 85 → cell "Age bracket" r' = VStr "65-84") ∧
        (85 < a ≤ 150 → cell "Age bracket" r' = VStr "85-").
Proof.
  intros Hcol Hnum. split; [reflexivity|].
  destruct (add_age_brackets df) as [out|e] eqn:Hok.
  2: { pose proof (proj2 (add_age_brackets_Ok df _) (conj Hcol (conj Hnum eq_refl))).
       congruence. }
  exists out. split; [done|].
  destruct (add_age_brackets_columns _ _ Hok) as (Hage & Hbracket & _).
  split; [done|]. split; [done|]. split.
  { apply add_age_brackets_Ok in Hok as (_ & _ & ->). apply nrows_fmap_rows. }
  intros i r a Hr Ha.
  destruct (add_age_brackets_row _ _ _ _ Hok Hr) as (r' & Hr' & Hb & Hdel & Hrest).
  exists r'. split; [done|]. split; [done|]. split; [done|].
  rewrite Hb, Ha. simpl. rewrite age_bracket_of.
  repeat split; intros ?; repeat (case_bool_decide; try lia); done.
Qed.

(** C3 as the specification states it fails on the label of the last
    bracket: the age 150 is given the bracket "85-", the label that the
    stage passes to [cut], and not "85+". *)
Lemma age_150_is_labelled_85_minus :
  ∃ out, add_age_brackets (ages_frame [150]) = Ok out ∧
    (cell "Age bracket" <$> rows out) = [VStr "85-"] ∧
    (cell "Age bracket" <$> rows out) ≠ [VStr "85+"].
Proof.
  eexists. split; [by vm_compute|]. split; [by vm_compute|]. by vm_compute.
Qed.

(** An age on an edge between two brackets is in the lower one, the
    intervals being closed on the right: 18 is in "0-17". *)
Lemma age_on_an_edge :
  ∃ out, add_age_brackets (ages_frame [18; 25; 85]) = Ok out ∧
    (cell "Age bracket" <$> rows out) = [VStr "0-17"; VStr "18-24"; VStr "65-84"].
Proof. eexists. split; by vm_compute. Qed.

(** The ages 0, 30 and 150: the second one is in the bracket 25-44. *)
Lemma age_brackets_between_edges_witness :
  "Age" ∈ columns (ages_frame [0; 30; 150]) ∧
  Forall is_numeric (cell "Age" <$> rows (ages_frame [0; 30; 150])) ∧
  ∃ out r', add_age_brackets (ages_frame [0; 30; 150]) = Ok out ∧
    rows out !! 1%nat = Some r' ∧ cell "Age bracket" r' = VStr "25-44".
Proof.
  assert (H1 : "Age" ∈ columns (ages_frame [0; 30; 150])) by by_evaluation.
  assert (H2 : Forall is_numeric (cell "Age" <$> rows (ages_frame [0; 30; 150])))
    by by_evaluation.
  split; [exact H1|]. split; [exact H2|].
  destruct (age_brackets_between_edges _ H1 H2) as (_ & out & Hok & _ & _ & _ & Hrows).
  destruct (Hrows 1%nat {[ "Age" := VInt 30 ]} 30 eq_refl eq_refl)
    as (r' & Hr' & _ & _ & _ & _ & Hb & _).
  exists out, r'. split; [exact Hok|]. split; [exact Hr'|]. apply Hb. lia.
Defined.

(** C4. Stage 6 returns no frame: whatever the frame it is given, it does
    not return, and on a frame with readable timestamps it computes the
    date and the bracket columns, drops the timestamp and the hour, and then
    raises [NameError] on the name [nhs_df] of its [return]. The brackets
    it computes before that are closed on the right: the hours 0, 7 and 23
    are in "00-03", "04-07" and "20-23", and the hour 4 is in "00-03". *)
Theorem time_bins_stage_raises_NameError :
  (∀ to_datetime df out, put_time_in_4_hour_bins to_datetime df ≠ Ok out) ∧
  (∀ to_datetime df ts,
     "Arrival Time" ∈ columns df →
     traverse to_datetime (cell "Arrival Time" <$> rows df) = Ok ts →
     put_time_in_4_hour_bins to_datetime df = Raise (NameError "nhs_df")) ∧
  put_time_in_4_hour_bins iso_to_datetime (arrivals_frame ["2019-04-01 04:30:00"])
    = Raise (NameError "nhs_df") ∧
  (hour_of <$> [Some {| dt_year := 2019; dt_month := 4; dt_day := 1;
                        dt_hour := 4; dt_minute := 30; dt_second := 0 |}]) = [VInt 4] ∧
  cut [VInt 0; VInt 7; VInt 23; VInt 4] hour_bins (Labels hour_labels) true
    = Ok [VStr "00-03"; VStr "04-07"; VStr "20-23"; VStr "00-03"].
Proof.
  split; [intros; apply put_time_in_4_hour_bins_not_Ok|].
  split; [intros; by eapply put_time_in_4_hour_bins_raises|].
  split; [by vm_compute|]. split; by vm_compute.
Qed.

(** C5. Hospital pseudonymization: on a frame whose hospital cells are
    names, [N] distinct ones, stage 5 numbers the names by a bijection onto
    the integers 1..N (every hospital gets an ID in the range, no two
    hospitals share one, every integer of the range is used), writes into
    every row the ID of the row's hospital, and replaces the column
    "Hospital" by the column "Hospital ID". The shuffle is taken to
    permute its list. *)
Theorem hospital_ids_bijection (shuffle : list value → list value) (df : DataFrame) :
  (∀ l, shuffle l ≡ₚ l) →
  "Hospital" ∈ columns df →
  Forall is_string (cell "Hospital" <$> rows df) →
  ∃ (id_of : value → Z) (out : DataFrame),
    replace_hospital_with_random_number shuffle df = Ok out ∧
    (∀ h, h ∈ cell "Hospital" <$> rows df →
       1 ≤ id_of h ≤ Z.of_nat (size (list_to_set (cell "Hospital" <$> rows df) : gset value))) ∧
    (∀ h h', h ∈ cell "Hospital" <$> rows df → h' ∈ cell "Hospital" <$> rows df →
       id_of h = id_of h' → h = h') ∧
    (∀ i, 1 ≤ i ≤ Z.of_nat (size (list_to_set (cell "Hospital" <$> rows df) : gset value)) →
       ∃ h, h ∈ cell "Hospital" <$> rows df ∧ id_of h = i) ∧
    rows out =
      (λ r, delete "Hospital" (<["Hospital ID" := VInt (id_of (cell "Hospital" r))]> r))
      <$> rows df ∧
    ("Hospital" ∉ columns out) ∧ "Hospital ID" ∈ columns out ∧
    (∀ c, c ∈ columns out → c ∈ columns df ∨ c = "Hospital ID").
Proof.
  intros Hshuffle Hcol Hnames.
  set (names := cell "Hospital" <$> rows df) in *.
  set (hospitals := shuffle (set_tolist names)).
  set (d := dict_of (zip hospitals (seqZ 1 (Z.of_nat (length hospitals))))).
  assert (Hnd : NoDup hospitals).
  { unfold hospitals. rewrite Hshuffle, set_tolist_strings by done. apply NoDup_elements. }
  assert (Hin : ∀ h, h ∈ hospitals ↔ h ∈ names).
  { intros h. unfold hospitals.
    rewrite Hshuffle, set_tolist_strings, elem_of_elements by done.
    apply elem_of_list_to_set. }
  assert (Hlen : length hospitals = size (list_to_set names : gset value)).
  { unfold hospitals. by rewrite Hshuffle, set_tolist_strings. }
  assert (Hd : ∀ h z, d !! h = Some z ↔ ∃ i : nat, hospitals !! i = Some h ∧ z = 1 + Z.of_nat i).
  { intros h z. by apply dict_of_zip_lookup. }
  assert (Hid : ∀ h, h ∈ names → ∃ i : nat, hospitals !! i = Some h ∧ d !! h = Some (1 + Z.of_nat i)).
  { intros h [i Hi]%Hin%list_elem_of_lookup. exists i. split; [done|].
    apply Hd. eauto. }
  exists (λ h, default 0 (d !! h)). eexists. split.
  { apply replace_hospital_with_random_number_Ok. done. }
  rewrite <-Hlen. simpl. repeat split.
  - destruct (Hid h H) as (i & _ & ->). simpl. lia.
  - destruct (Hid h H) as (i & Hi & ->). simpl.
    apply lookup_lt_Some in Hi. lia.
  - intros h h' Hh Hh'.
    destruct (Hid h Hh) as (i & Hi & ->), (Hid h' Hh') as (j & Hj & ->). simpl.
    intros Hij. assert (i = j) as -> by lia. congruence.
  - intros i [Hi1 Hi2].
    destruct (lookup_lt_is_Some_2 hospitals (Z.to_nat (i - 1))) as [h Hh]; [lia|].
    exists h. split; [apply Hin; by eapply list_elem_of_lookup_2|].
    assert (d !! h = Some (1 + Z.of_nat (Z.to_nat (i - 1)))) as -> by (apply Hd; eauto).
    simpl. lia.
  - apply list_fmap_ext. intros k r Hr. fold d.
    assert (Hr' : cell "Hospital" r ∈ names).
    { apply list_elem_of_fmap. exists r. split; [done|]. by eapply list_elem_of_lookup_2. }
    destruct (Hid _ Hr') as (i & _ & Hi). simpl.
    change (dict_of _) with d. by rewrite Hi.
  - rewrite list_elem_of_filter. naive_solver.
  - apply list_elem_of_filter. split; [done|].
    destruct (decide _); [done|]. apply elem_of_app. right. by apply list_elem_of_singleton.
  - intros c [_ Hc]%list_elem_of_filter. destruct (decide _); [by left|].
    apply elem_of_app in Hc as [?|?%list_elem_of_singleton]; auto.
Qed.

(** The three visits, with the reversal of a list for the shuffle. *)
Lemma hospital_ids_bijection_witness :
  (∀ l : list value, reverse l ≡ₚ l) ∧
  "Hospital" ∈ columns three_visits ∧
  Forall is_string (cell "Hospital" <$> rows three_visits) ∧
  ∃ out, replace_hospital_with_random_number reverse three_visits = Ok out ∧
    "Hospital ID" ∈ columns out.
Proof.
  assert (H1 : ∀ l : list value, reverse l ≡ₚ l) by apply reverse_Permutation.
  assert (H2 : "Hospital" ∈ columns three_visits) by by_evaluation.
  assert (H3 : Forall is_string (cell "Hospital" <$> rows three_visits)) by by_evaluation.
  split; [exact H1|]. split; [exact H2|]. split; [exact H3|].
  destruct (hospital_ids_bijection reverse three_visits H1 H2 H3)
    as (id_of & out & Hok & _ & _ & _ & _ & _ & Hid & _).
  exists out. split; [exact Hok|exact Hid].
Defined.

(** C6. Deprivation deciles: when stage 4 returns a frame, the bin edges
    are those that [qcut] gives for the deprivation index column of the
    whole reference table, whatever the working frame: eleven numbers that
    increase. Every row of the output comes from one input row and one
    reference line of the same small area, with the other cells of the
    input row; its decile [d] is an integer from 1 to 10, the number of
    the bin of that line's index: the index is above the edge [d - 1] and
    not above the edge [d], or it is the lowest edge and [d] is 1. A frame
    with the same rows in another order gets the same output rows. The
    edges of [qcut] are taken to go from the least index of the table to
    the greatest, and the indices to be numbers that a float holds
    exactly. *)
Theorem deciles_from_reference_boundaries
    (ref : list postcode_record) (qcut : list value → positive → result (list Q))
    (df out : DataFrame) :
  (∀ bins, qcut (VInt <$> (rec_imd <$> ref)) 10%positive = Ok bins →
     spans bins (rec_imd <$> ref)) →
  Forall (λ p, float_exact (rec_imd p)) ref →
  convert_lsoa_to_imd_decile ref qcut df = Ok out →
  ∃ bins,
    qcut (VInt <$> (rec_imd <$> ref)) 10%positive = Ok bins ∧
    length bins = 11%nat ∧ StronglySorted Qlt bins ∧
    (∀ r', r' ∈ rows out →
       ∃ r p (d : nat) lo hi,
         r ∈ rows df ∧ p ∈ ref ∧ cell LSOA r = VStr (rec_lsoa p) ∧
         (1 ≤ d ≤ 10)%nat ∧ cell IMD_DECILE r' = VInt (Z.of_nat d) ∧
         bins !! (d - 1)%nat = Some lo ∧ bins !! d = Some hi ∧
         ((lo < inject_Z (rec_imd p))%Q ∧ (inject_Z (rec_imd p) <= hi)%Q
          ∨ d = 1%nat ∧ (inject_Z (rec_imd p) == lo)%Q) ∧
         ∀ c, c ∈ columns df → c ≠ LSOA → c ≠ IMD_DECILE → cell c r' = cell c r) ∧
    (∀ df', columns df' = columns df → rows df' ≡ₚ rows df →
       ∃ out', convert_lsoa_to_imd_decile ref qcut df' = Ok out' ∧
         columns out' = columns out ∧ rows out' ≡ₚ rows out).
Proof.
  intros Hspans _ Hok.
  apply convert_lsoa_to_imd_decile_Ok in Hok
    as (Hlsoa & Himd & Hkeys & bins & Hq & Hmono & Hedges & ->).
  rewrite list_fmap_compose in Hq. pose proof (Hspans bins Hq) as Hs.
  assert (Hlen : length bins = 11%nat) by apply Hs.
  exists bins. split; [done|]. split; [done|].
  split; [apply edges_increase; [done..|lia]|]. split.
  - intros r' (r & Hr' & Hr%grouped_elem)%list_elem_of_bind.
    destruct (decile_rows_elem _ _ _ _ _ Himd Hr') as (p & Hp & Hkey & Hdec & Hrest).
    destruct (decile_cell_reference _ _ (rec_imd p) Hs) as (d & Hd & Hrange & Hcell);
      [by apply list_elem_of_fmap_2|].
    apply bin_index_edges in Hd as (_ & lo & hi & Hlo & Hhi & Hbin);
      [|by destruct bins].
    exists r, p, d, lo, hi. rewrite Hdec, Hcell. done.
  - intros df' Hcols Hperm. eexists. split.
    { apply convert_lsoa_to_imd_decile_eval; rewrite ?Hcols; try done.
      - rewrite <-Hkeys. apply merge_keys_error_Permutation. by rewrite Hperm.
      - by rewrite list_fmap_compose. }
    unfold decile_frame; cbn [columns rows]. rewrite Hcols. split; [done|].
    by rewrite !grouped_Permutation, Hperm.
Qed.

(** Three visits in the small areas of the eleven postcodes, with the
    quantiles in exact arithmetic. *)
Lemma deciles_from_reference_boundaries_witness :
  (∀ bins, exact_qcut (VInt <$> (rec_imd <$> eleven_postcodes)) 10%positive = Ok bins →
     spans bins (rec_imd <$> eleven_postcodes)) ∧
  Forall (λ p, float_exact (rec_imd p)) eleven_postcodes ∧
  ∃ out,
    convert_lsoa_to_imd_decile eleven_postcodes exact_qcut visits_in_areas = Ok out ∧
    (cell IMD_DECILE <$> rows out) = [VInt 2; VInt 2; VInt 9] ∧
    ∃ bins,
      exact_qcut (VInt <$> (rec_imd <$> eleven_postcodes)) 10%positive = Ok bins ∧
      length bins = 11%nat ∧ StronglySorted Qlt bins.
Proof.
  assert (H1 : ∀ bins,
    exact_qcut (VInt <$> (rec_imd <$> eleven_postcodes)) 10%positive = Ok bins →
    spans bins (rec_imd <$> eleven_postcodes)) by (intros bins; apply exact_qcut_spans).
  assert (H2 : Forall (λ p, float_exact (rec_imd p)) eleven_postcodes) by by_evaluation.
  split; [exact H1|]. split; [exact H2|].
  eexists. split; [vm_compute; reflexivity|]. split; [vm_compute; reflexivity|].
  destruct (deciles_from_reference_boundaries eleven_postcodes exact_qcut visits_in_areas
              _ H1 H2 eq_refl) as (bins & Hq & Hlen & Hsorted & _).
  exists bins. split; [exact Hq|]. split; [exact Hlen|exact Hsorted].
Defined.

(** C7. Categorical filtering: on a frame with a "Gender" column, stage 7
    returns the rows whose gender is the string "Male" or the string
    "Female", in their order and as they are (every cell unchanged), and no
    other row; the columns stay the same. *)
Theorem gender_filter_keeps_male_and_female (df : DataFrame) :
  "Gender" ∈ columns df →
  ∃ out, remove_non_male_or_female df = Ok out ∧
    columns out = columns df ∧
    rows out = filter (λ r, cell "Gender" r = VStr "Male" ∨ cell "Gender" r = VStr "Female")
                 (rows df) ∧
    ∀ r, r ∈ rows out ↔
         r ∈ rows df ∧ (cell "Gender" r = VStr "Male" ∨ cell "Gender" r = VStr "Female").
Proof.
  intros Hcol. eexists. split; [by apply remove_non_male_or_female_Ok|]. simpl.
  assert (Hf : filter (λ r, cell "Gender" r ∈ [VStr "Male"; VStr "Female"]) (rows df) =
               filter (λ r, cell "Gender" r = VStr "Male" ∨ cell "Gender" r = VStr "Female")
                 (rows df)).
  { apply list_filter_iff. intros r. rewrite !elem_of_cons, elem_of_nil. naive_solver. }
  rewrite Hf. split; [done|]. split; [done|].
  intros r. rewrite list_elem_of_filter. tauto.
Qed.

(** The three visits of the scenario. *)
Lemma gender_filter_keeps_male_and_female_witness :
  "Gender" ∈ columns three_visits ∧
  ∃ out, remove_non_male_or_female three_visits = Ok out ∧
    columns out = columns three_visits.
Proof.
  assert (H : "Gender" ∈ columns three_visits) by by_evaluation.
  split; [exact H|].
  destruct (gender_filter_keeps_male_and_female three_visits H) as (out & Hok & Hc & _).
  exists out. split; [exact Hok|exact Hc].
Defined.

(** C8, as amended. A stage that is given a frame without the column it reads raises a
    [KeyError] whose argument is the name of that column, and so returns no
    frame at all: this holds for each of the seven stages, with the column
    listed for it in [expected_columns]. *)
Theorem missing_column_raises_KeyError ref qcut shuffle to_datetime i stage c df :
  stages ref qcut shuffle to_datetime !! i = Some stage →
  expected_columns !! i = Some c →
  c ∉ columns df →
  stage df = Raise (KeyError c) ∧
  exc_class (KeyError c) = "KeyError" ∧ exc_arg (KeyError c) = c.
Proof.
  intros Hstage Hc Hdf. split; [|done].
  destruct i as [|[|[|[|[|[|[|i]]]]]]]; simpl in Hstage, Hc;
    try discriminate; injection Hstage as <-; injection Hc as <-.
  - unfold remove_nhs_numbers. by rewrite drop_column_missing.
  - unfold convert_postcodes_to_lsoa. rewrite select_postcode_lsoa; cbn [bind].
    by rewrite merge_missing_key.
  - unfold convert_lsoa_to_imd_decile. rewrite select_lsoa_imd; cbn [bind].
    by rewrite merge_missing_key.
  - unfold replace_hospital_with_random_number. by rewrite getcol_missing.
  - unfold put_time_in_4_hour_bins. by rewrite getcol_missing.
  - unfold remove_non_male_or_female, filter_isin. by rewrite getcol_missing.
  - unfold add_age_brackets. by rewrite getcol_missing.
Qed.

(** C8 as the specification states it fails: a stage that misses its
    column raises the [KeyError] of pandas, and no exception of a class
    [SchemaError]. *)
Lemma missing_column_is_no_SchemaError :
  ∃ e e',
    remove_nhs_numbers visits_without_nhs_number = Raise e ∧
    put_time_in_4_hour_bins iso_to_datetime (ages_frame [10]) = Raise e' ∧
    e = KeyError "NHS number" ∧ e' = KeyError "Arrival Time" ∧
    exc_class e ≠ "SchemaError" ∧ exc_class e' ≠ "SchemaError".
Proof. eexists _, _. repeat split; by vm_compute. Qed.

(** Stage 2 on the visits without NHS numbers. *)
Lemma missing_column_raises_KeyError_witness :
  stages eleven_postcodes exact_qcut reverse iso_to_datetime !! 0%nat = Some remove_nhs_numbers ∧
  expected_columns !! 0%nat = Some "NHS number" ∧
  ("NHS number" ∉ columns visits_without_nhs_number) ∧
  remove_nhs_numbers visits_without_nhs_number = Raise (KeyError "NHS number").
Proof.
  assert (H : "NHS number" ∉ columns visits_without_nhs_number) by by_evaluation.
  split; [reflexivity|]. split; [reflexivity|]. split; [exact H|].
  apply (missing_column_raises_KeyError eleven_postcodes exact_qcut reverse iso_to_datetime 0
           remove_nhs_numbers "NHS number" visits_without_nhs_number
           eq_refl eq_refl H).
Defined.

(** C9, as amended. With a reference table that has one line for each
    postcode and one deprivation index for each small area, a stage never
    returns more rows than it is given, and neither does a run of the first
    [n] stages. Each of the two joins returns one row for each row of its
    input whose key, the postcode or the small area, is in the reference
    table, and no other row: the rows of the output answer one by one to
    those rows of the input, taken in some order, with the cells of the
    other columns as they were, and for the first join with the small area
    of the postcode. *)
Theorem row_count_never_grows ref qcut shuffle to_datetime :
  NoDup (rec_postcode <$> ref) →
  one_index_per_area ref →
  (∀ stage df out,
     stage ∈ stages ref qcut shuffle to_datetime →
     stage df = Ok out → (nrows out ≤ nrows df)%nat) ∧
  (∀ n df out,
     run (take n (stages ref qcut shuffle to_datetime)) df = Ok out →
     (nrows out ≤ nrows df)%nat) ∧
  (∀ df out,
     LSOA ∉ columns df →
     convert_postcodes_to_lsoa ref df = Ok out →
     ∃ kept,
       kept ≡ₚ filter (λ l, is_Some (area_of_postcode ref (cell "Postcode" l))) (rows df) ∧
       Forall2 (λ l r',
                  cell LSOA r'
                    = from_option VStr NaN (area_of_postcode ref (cell "Postcode" l)) ∧
                  ∀ c, c ∈ columns df → c ≠ "Postcode" → cell c r' = cell c l)
         kept (rows out)) ∧
  (∀ df out,
     convert_lsoa_to_imd_decile ref qcut df = Ok out →
     ∃ kept,
       kept ≡ₚ filter (λ l, is_Some (index_of_area ref (cell LSOA l))) (rows df) ∧
       Forall2 (λ l r',
                  ∀ c, c ∈ columns df → c ≠ LSOA → c ≠ IMD_DECILE → cell c r' = cell c l)
         kept (rows out)).
Proof.
  intros Hnd Hfun.
  assert (Hstage : ∀ stage df out,
     stage ∈ stages ref qcut shuffle to_datetime →
     stage df = Ok out → (nrows out ≤ nrows df)%nat).
  { intros. by eapply stage_nrows. }
  split; [done|]. split; [|split].
  - intros n.
    assert (Hsub : Forall (λ f, f ∈ stages ref qcut shuffle to_datetime)
                     (take n (stages ref qcut shuffle to_datetime))).
    { apply Forall_take, Forall_forall. auto. }
    induction Hsub as [|f fs Hf _ IH]; intros df out; simpl.
    + intros [= <-]. done.
    + intros Hrun. inv_bind Hrun.
      etrans; [by apply IH|]. by eapply Hstage.
  - intros df out Hlsoa Hok.
    apply convert_postcodes_to_lsoa_rows in Hok as ->; [|done..]. cbn [rows].
    exists (filter (λ l, is_Some (area_of_postcode ref (cell "Postcode" l)))
              (grouped "Postcode" (rows df))).
    split; [by rewrite grouped_Permutation|].
    apply Forall2_fmap_self. intros l [Hl _]%list_elem_of_filter.
    destruct (with_area_cells ref (columns df) l Hlsoa Hl) as (? & _ & ?). done.
  - intros df out Hok.
    apply convert_lsoa_to_imd_decile_Ok in Hok as (_ & Himd & _ & bins & _ & _ & _ & ->).
    rewrite decile_frame_rows by (by apply one_index_per_area_spec).
    exists (filter (λ l, is_Some (index_of_area ref (cell LSOA l)))
              (grouped LSOA (rows df))).
    split; [by rewrite grouped_Permutation|].
    apply Forall2_fmap_self. intros l [Hl _]%list_elem_of_filter.
    by destruct (with_decile_cells ref bins (columns df) l Himd Hl) as [_ ?].
Qed.

(** C9 as the specification states it fails: with a reference table that
    has one line for each postcode, but two deprivation indices for one
    small area, the second join returns two rows for the one row it is
    given. *)
Lemma second_join_doubles_a_row :
  NoDup (rec_postcode <$> two_indices_one_area) ∧
  ∃ df out,
    run (take 2 (stages two_indices_one_area exact_qcut reverse iso_to_datetime)) one_visit = Ok df ∧
    convert_lsoa_to_imd_decile two_indices_one_area exact_qcut df = Ok out ∧
    nrows df = 1%nat ∧ nrows out = 2%nat.
Proof.
  split; [apply (bool_decide_unpack _); by vm_compute|].
  eexists _, _. split; [by vm_compute|]. split; [by vm_compute|]. split; by vm_compute.
Qed.

(** The eleven postcodes, one small area and one index each. *)
Lemma row_count_never_grows_witness :
  NoDup (rec_postcode <$> eleven_postcodes) ∧
  one_index_per_area eleven_postcodes ∧
  (∀ n df out,
     run (take n (stages eleven_postcodes exact_qcut reverse iso_to_datetime)) df = Ok out →
     (nrows out ≤ nrows df)%nat) ∧
  ∃ out kept,
    convert_postcodes_to_lsoa eleven_postcodes three_visits = Ok out ∧
    kept ≡ₚ rows three_visits ∧
    Forall2 (λ l r', ∀ c, c ∈ columns three_visits → c ≠ "Postcode" → cell c r' = cell c l)
      kept (rows out).
Proof.
  assert (H1 : NoDup (rec_postcode <$> eleven_postcodes)) by by_evaluation.
  assert (H2 : one_index_per_area eleven_postcodes) by by_evaluation.
  assert (H3 : LSOA ∉ columns three_visits) by by_evaluation.
  split; [exact H1|]. split; [exact H2|].
  destruct (row_count_never_grows eleven_postcodes exact_qcut reverse iso_to_datetime H1 H2)
    as (_ & Hrun & Hjoin & _).
  split; [exact Hrun|].
  destruct (convert_postcodes_to_lsoa eleven_postcodes three_visits) as [out|e] eqn:Hok;
    [|vm_compute in Hok; discriminate Hok].
  destruct (Hjoin three_visits out H3 Hok) as (kept & Hkept & Hrows).
  exists out, kept. split; [reflexivity|]. split; [exact Hkept|].
  eapply Forall2_impl; [exact Hrows|]. intros l r' [_ Hc]. exact Hc.
Defined.

(** C10. An age outside the range of the bins: on a frame whose "Age"
    column is numeric, stage 8 raises no exception; a row whose age is below
    0 or above 150 (151, say) stays in the frame, at its position and with
    its other cells unchanged, its age bracket is the missing value, and the
    column "Age" is dropped. *)
Theorem age_out_of_range_is_missing (df : DataFrame) :
  "Age" ∈ columns df →
  Forall is_numeric (cell "Age" <$> rows df) →
  ∃ out, add_age_brackets df = Ok out ∧
    ("Age" ∉ columns out) ∧
    nrows out = nrows df ∧
    ∀ i r a, rows df !! i = Some r → cell "Age" r = VInt a → a < 0 ∨ 150 < a →
      ∃ r', rows out !! i = Some r' ∧
        cell "Age bracket" r' = NaN ∧
        r' !! "Age" = None ∧
        ∀ c, c ≠ "Age" → c ≠ "Age bracket" → r' !! c = r !! c.
Proof.
  intros Hcol Hnum.
  destruct (add_age_brackets df) as [out|e] eqn:Hok.
  2: { pose proof (proj2 (add_age_brackets_Ok df _) (conj Hcol (conj Hnum eq_refl))).
       congruence. }
  exists out. split; [done|].
  split; [by destruct (add_age_brackets_columns _ _ Hok)|].
  split.
  { apply add_age_brackets_Ok in Hok as (_ & _ & ->). apply nrows_fmap_rows. }
  intros i r a Hr Ha Hrange.
  destruct (add_age_brackets_row _ _ _ _ Hok Hr) as (r' & Hr' & Hb & Hage & Hrest).
  exists r'. split; [done|]. split; [|done].
  rewrite Hb, Ha. simpl. rewrite age_bracket_of.
  repeat (case_bool_decide; try lia); done.
Qed.

(** The age 151. *)
Lemma age_out_of_range_is_missing_witness :
  "Age" ∈ columns (ages_frame [151]) ∧
  Forall is_numeric (cell "Age" <$> rows (ages_frame [151])) ∧
  ∃ out r', add_age_brackets (ages_frame [151]) = Ok out ∧
    nrows out = 1%nat ∧ rows out !! 0%nat = Some r' ∧ cell "Age bracket" r' = NaN.
Proof.
  assert (H1 : "Age" ∈ columns (ages_frame [151])) by by_evaluation.
  assert (H2 : Forall is_numeric (cell "Age" <$> rows (ages_frame [151]))) by by_evaluation.
  split; [exact H1|]. split; [exact H2|].
  destruct (age_out_of_range_is_missing _ H1 H2) as (out & Hok & _ & Hn & Hrows).
  destruct (Hrows 0%nat {[ "Age" := VInt 151 ]} 151 eq_refl eq_refl) as (r' & Hr' & Hb & _);
    [lia|].
  exists out, r'. split; [exact Hok|]. split; [exact Hn|]. split; [exact Hr'|exact Hb].
Defined.

(** * Further properties of the stages *)

(** ** Which exception a stage raises *)

Lemma traverse_Raise {A B} (f : A → result B) l e :
  traverse f l = Raise e → ∃ a, a ∈ l ∧ f a = Raise e.
Proof.
  induction l as [|a l IH]; simpl; [done|].
  destruct (f a) as [b|e'] eqn:Hfa; simpl.
  - destruct (traverse f l) as [bs|e'] eqn:Hl; simpl; [done|].
    intros [= ->]. destruct (IH eq_refl) as (a' & ? & ?).
    exists a'. split; [by right|done].
  - intros [= ->]. exists a. split; [by left|done].
Qed.

Lemma traverse_Ok_or_Raise {A B} (f : A → result B) l :
  (∃ bs, traverse f l = Ok bs) ∨ (∃ e a, traverse f l = Raise e ∧ a ∈ l ∧ f a = Raise e).
Proof.
  destruct (traverse f l) as [bs|e] eqn:H; [left; eauto|].
  right. apply traverse_Raise in H as (a & ? & ?). eauto.
Qed.


(** X2. Stage 8 on a frame with an "Age" column returns a frame exactly
    when every age is a number or is missing; a string among the ages makes
    it raise a [TypeError]. A missing age gets a missing bracket, and its
    row stays. *)
Theorem add_age_brackets_needs_numeric_ages df :
  "Age" ∈ columns df →
  (Forall is_numeric (cell "Age" <$> rows df) →
     ∃ out, add_age_brackets df = Ok out ∧ nrows out = nrows df ∧
       ∀ i r, rows df !! i = Some r → cell "Age" r = NaN →
         ∃ r', rows out !! i = Some r' ∧ cell "Age bracket" r' = NaN) ∧
  (¬ Forall is_numeric (cell "Age" <$> rows df) →
     ∃ e, add_age_brackets df = Raise e ∧ exc_class e = "TypeError").
Proof.
  intros Hcol. split.
  - intros Hnum.
    destruct (add_age_brackets df) as [out|e] eqn:Hok.
    2: { pose proof (proj2 (add_age_brackets_Ok df _) (conj Hcol (conj Hnum eq_refl))).
         congruence. }
    exists out. split; [done|]. split.
    { apply add_age_brackets_Ok in Hok as (_ & _ & ->). apply nrows_fmap_rows. }
    intros i r Hr Ha.
    destruct (add_age_brackets_row _ _ _ _ Hok Hr) as (r' & Hr' & Hb & _).
    exists r'. split; [done|]. by rewrite Hb, Ha.
  - intros Hnum.
    destruct (add_age_brackets df) as [out|e] eqn:Hok.
    { apply add_age_brackets_Ok in Hok as (_ & ? & _). done. }
    exists e. split; [done|].
    unfold add_age_brackets in Hok. rewrite getcol_present in Hok by done.
    cbn [bind] in Hok. unfold cut in Hok.
    change (monotonic age_bins) with true in Hok.
    change (edges_ok age_bins) with true in Hok. cbn [negb] in Hok.
    destruct (traverse_Ok_or_Raise to_numeric (cell "Age" <$> rows df))
      as [[xs Hxs]|(e' & a & Hxs & _ & Ha)]; rewrite Hxs in Hok; cbn [bind] in Hok.
    + change (labels_ok age_bins (Labels age_labels)) with true in Hok.
      cbn [bind] in Hok.
      destruct (drop_column _ _) eqn:Hd in Hok; [done|].
      rewrite drop_column_present in Hd; [done|]. apply columns_setcol. by left.
    + injection Hok as <-. by destruct a; simplify_eq/=.
Qed.

(** ** The stages that [main] reaches *)

(** X3. Whatever the input, [main] ends with an exception raised by one of
    the stages 2 to 6 and writes nothing: the gender filter and the age
    brackets are never reached. *)
Theorem main_stops_within_five_stages ref qcut shuffle to_datetime df :
  ∃ e, run (take 5 (stages ref qcut shuffle to_datetime)) df = Raise e ∧
    main ref qcut shuffle to_datetime df = {| written := None; raised := Some e |}.
Proof.
  unfold main, deidentify, load_nhs_london_ae_data. cbn [bind take stages run].
  destruct (remove_nhs_numbers df) as [df1|e]; cbn [bind]; [|eauto].
  destruct (convert_postcodes_to_lsoa ref df1) as [df2|e]; cbn [bind]; [|eauto].
  destruct (convert_lsoa_to_imd_decile ref qcut df2) as [df3|e]; cbn [bind]; [|eauto].
  destruct (replace_hospital_with_random_number shuffle df3) as [df4|e]; cbn [bind]; [|eauto].
  destruct (put_time_in_4_hour_bins to_datetime df4) as [df5|e] eqn:H6; cbn [bind]; [|eauto].
  by apply put_time_in_4_hour_bins_not_Ok in H6.
Qed.

(** ** Calling a stage again, and in another order *)

Lemma stage_without_its_column ref qcut shuffle to_datetime i stage c df :
  stages ref qcut shuffle to_datetime !! i = Some stage →
  expected_columns !! i = Some c →
  c ∉ columns df →
  stage df = Raise (KeyError c).
Proof.
  intros Hstage Hc Hdf.
  destruct i as [|[|[|[|[|[|[|i]]]]]]]; simpl in Hstage, Hc;
    try discriminate; injection Hstage as <-; injection Hc as <-.
  - unfold remove_nhs_numbers. by rewrite drop_column_missing.
  - unfold convert_postcodes_to_lsoa. rewrite select_postcode_lsoa; cbn [bind].
    by rewrite merge_missing_key.
  - unfold convert_lsoa_to_imd_decile. rewrite select_lsoa_imd; cbn [bind].
    by rewrite merge_missing_key.
  - unfold replace_hospital_with_random_number. by rewrite getcol_missing.
  - unfold put_time_in_4_hour_bins. by rewrite getcol_missing.
  - unfold remove_non_male_or_female, filter_isin. by rewrite getcol_missing.
  - unfold add_age_brackets. by rewrite getcol_missing.
Qed.

(** X4. A stage other than the gender filter cannot be called on the frame
    it returned: the column it reads is gone from that frame, and the second
    call raises the [KeyError] of that column. *)
Theorem stage_cannot_run_twice ref qcut shuffle to_datetime i stage c df out :
  stages ref qcut shuffle to_datetime !! i = Some stage →
  expected_columns !! i = Some c →
  c ≠ "Gender" →
  stage df = Ok out →
  (c ∉ columns out) ∧ stage out = Raise (KeyError c).
Proof.
  intros Hstage Hc Hne Hok.
  assert (Hgone : c ∉ columns out).
  { destruct i as [|[|[|[|[|[|[|i]]]]]]]; simpl in Hstage, Hc;
      try discriminate; injection Hstage as <-; injection Hc as <-.
    - apply remove_nhs_numbers_Ok in Hok as [_ ->]; simpl.
      rewrite list_elem_of_filter. naive_solver.
    - by apply convert_postcodes_to_lsoa_Ok in Hok as (_ & ? & _).
    - apply convert_lsoa_to_imd_decile_Ok in Hok as (_ & _ & _ & bins & _ & _ & _ & ->).
      unfold decile_frame; simpl. rewrite list_elem_of_filter. naive_solver.
    - apply replace_hospital_with_random_number_Ok in Hok as (_ & _ & ->); simpl.
      rewrite list_elem_of_filter. naive_solver.
    - by apply put_time_in_4_hour_bins_not_Ok in Hok.
    - done.
    - by apply add_age_brackets_columns in Hok as (? & _). }
  split; [done|]. by eapply stage_without_its_column.
Qed.

(** X5. The gender filter can be called again: on the frame it returned it
    returns the same frame. *)
Theorem gender_filter_idempotent df out :
  remove_non_male_or_female df = Ok out →
  remove_non_male_or_female out = Ok out.
Proof.
  intros Hok. apply remove_non_male_or_female_Ok in Hok as [Hcol ->].
  apply remove_non_male_or_female_Ok. split; [done|]. simpl. f_equal.
  rewrite list_filter_filter. apply list_filter_iff. tauto.
Qed.

Lemma list_filter_fmap_same {A} (P : A → Prop) `{∀ x, Decision (P x)} (g : A → A)
    (l : list A) :
  (∀ x, P (g x) ↔ P x) → filter P (g <$> l) = g <$> filter P l.
Proof.
  intros Hg. induction l as [|x l IH]; [done|].
  rewrite fmap_cons, !filter_cons.
  destruct (decide (P (g x))), (decide (P x)); rewrite ?fmap_cons, ?IH; naive_solver.
Qed.

(** X6. The gender filter and the age brackets can be called in either
    order: on a frame with the columns "Gender" and "Age", the ages all
    numbers or missing, both orders return the same frame. *)
Theorem gender_filter_commutes_with_age_brackets df :
  "Gender" ∈ columns df → "Age" ∈ columns df →
  Forall is_numeric (cell "Age" <$> rows df) →
  ∃ out,
    (let* df1 := remove_non_male_or_female df in add_age_brackets df1) = Ok out ∧
    (let* df1 := add_age_brackets df in remove_non_male_or_female df1) = Ok out.
Proof.
  intros Hg Ha Hnum. eexists. split.
  - apply bind_Ok. eexists. split; [by apply remove_non_male_or_female_Ok|].
    apply add_age_brackets_Ok. cbn [columns rows]. split; [done|]. split; [|reflexivity].
    rewrite Forall_fmap, Forall_forall in Hnum |- *.
    intros r [_ Hr]%list_elem_of_filter. by apply Hnum.
  - apply bind_Ok. eexists. split; [by apply add_age_brackets_Ok|].
    apply remove_non_male_or_female_Ok. cbn [columns rows]. split.
    + apply list_elem_of_filter. split; [done|].
      destruct (decide _); [done|]. apply elem_of_app. by left.
    + f_equal. symmetry. apply list_filter_fmap_same. intros r.
      unfold cell. by rewrite lookup_delete_ne, lookup_insert_ne.
Qed.

(** ** The rows of the first join *)

(** X7. The first join is an inner join: on a frame with a column of
    postcodes that is a column of strings, and no small-area column, and
    with a reference table of one line for each postcode, stage 3 returns
    the rows whose postcode is in the reference table, with their other
    cells as they were, each with the small area of its postcode; a row
    whose postcode is missing or unknown is dropped. The rows come grouped
    by postcode: the postcodes in the order in which they first occur in
    the frame, the rows of one postcode in their order. *)
Theorem postcode_join_keeps_known_postcodes ref df :
  "Postcode" ∈ columns df →
  LSOA ∉ columns df →
  dtype_of (cell "Postcode" <$> rows df) = object →
  NoDup (rec_postcode <$> ref) →
  ∃ out, convert_postcodes_to_lsoa ref df = Ok out ∧
    let known l := is_Some (area_of_postcode ref (cell "Postcode" l)) in
    let kept := filter known (grouped "Postcode" (rows df)) in
    kept ≡ₚ filter known (rows df) ∧
    columns out = (filter (λ c, c ≠ "Postcode") (columns df) ++ [LSOA])%list ∧
    nrows out = length kept ∧
    (cell LSOA <$> rows out) =
      ((λ l, from_option VStr NaN (area_of_postcode ref (cell "Postcode" l))) <$> kept) ∧
    (∀ c, c ∈ columns df → c ≠ "Postcode" → (cell c <$> rows out) = (cell c <$> kept)) ∧
    Forall (λ r', r' !! "Postcode" = None) (rows out).
Proof.
  intros Hcol Hlsoa Hobj Hnd. eexists. split.
  { apply convert_postcodes_to_lsoa_eval; [done..|].
    apply merge_keys_error_object; [done|apply postcode_keys_strings]. }
  cbn [columns rows]. split; [by rewrite grouped_Permutation|]. split; [done|].
  split; [unfold nrows; cbn [rows]; by rewrite length_fmap|].
  split; [|split].
  - rewrite <-list_fmap_compose. apply list_fmap_ext.
    intros i l Hl. apply list_elem_of_lookup_2, list_elem_of_filter in Hl as [Hl _].
    by apply with_area_cells.
  - intros c Hc Hne. rewrite <-list_fmap_compose. apply list_fmap_ext.
    intros i l Hl. apply list_elem_of_lookup_2, list_elem_of_filter in Hl as [Hl _].
    by apply with_area_cells.
  - rewrite Forall_fmap, Forall_forall. intros l [Hl _]%list_elem_of_filter.
    by apply with_area_cells.
Qed.

(** ** The deciles of stage 4 *)

Lemma searchsorted_mono bins x y :
  Qle x y → (searchsorted bins x ≤ searchsorted bins y)%nat.
Proof.
  intros Hxy. induction bins as [|b bins IH]; simpl; [lia|].
  destruct (Qle_bool x b) eqn:Hx; [lia|].
  destruct (Qle_bool y b) eqn:Hy; [|lia].
  apply Qle_bool_iff in Hy.
  assert (Qle_bool x b = true) by (apply Qle_bool_iff; by apply (Qle_trans _ y)).
  congruence.
Qed.

(** The bins of [cut] follow the order of the numbers. *)
Lemma bin_index_mono bins include_lowest x y dx dy :
  bin_index bins include_lowest x = Some dx →
  bin_index bins include_lowest y = Some dy →
  Qle x y → (dx ≤ dy)%nat.
Proof.
  unfold bin_index. intros Hx Hy Hxy.
  pose proof (searchsorted_mono bins x y Hxy) as Hmono.
  destruct (include_lowest && Qeq_bool x (hd 0%Q bins)) eqn:Hcx;
    destruct (include_lowest && Qeq_bool y (hd 0%Q bins)) eqn:Hcy;
    repeat case_decide; simplify_eq; try lia.
  apply andb_true_iff in Hcy as [_ Hcy]. apply Qeq_bool_iff in Hcy.
  destruct bins as [|b bins]; simpl in *; [lia|].
  assert (Hle : Qle_bool x b = true).
  { apply Qle_bool_iff. apply (Qle_trans _ y); [done|].
    apply Qle_lteq. right. done. }
  rewrite Hle in *. lia.
Qed.

(** A number that is the first edge is in the first bin. *)
Lemma first_edge_decile bins (z : Z) e0 :
  length bins = 11%nat → bins !! 0%nat = Some e0 → (e0 == inject_Z z)%Q →
  decile_cell bins (VInt z) = VInt 1.
Proof.
  intros Hlen H0 He0.
  assert (Hhd : hd 0%Q bins = e0) by (destruct bins; [done|by injection H0]).
  unfold decile_cell, cut_cell, bin_index. simpl. rewrite Hhd, Hlen.
  assert (Qeq_bool (inject_Z z) e0 = true) as -> by (apply Qeq_bool_iff; by symmetry).
  cbn [andb]. by rewrite decide_False by lia.
Qed.

(** X8. The deciles follow the deprivation index: when stage 4 returns a
    frame, the decile of every row of it is a function of the index that
    the reference table gives for the small area of the row; of two
    reference lines the one with the greater index has the greater or the
    same decile, both from 1 to 10, and a line with the least index of the
    table is in decile 1. The edges of [qcut] are taken to go from the
    least index of the table to the greatest, and the indices to be
    numbers that a float holds exactly. *)
Theorem deciles_follow_the_index ref qcut df out :
  (∀ bins, qcut (VInt <$> (rec_imd <$> ref)) 10%positive = Ok bins →
     spans bins (rec_imd <$> ref)) →
  Forall (λ p, float_exact (rec_imd p)) ref →
  convert_lsoa_to_imd_decile ref qcut df = Ok out →
  ∃ decile : Z → Z,
    (∀ r', r' ∈ rows out →
       ∃ r p, r ∈ rows df ∧ p ∈ ref ∧ cell LSOA r = VStr (rec_lsoa p) ∧
         cell IMD_DECILE r' = VInt (decile (rec_imd p))) ∧
    (∀ p q, p ∈ ref → q ∈ ref → rec_imd p ≤ rec_imd q →
       1 ≤ decile (rec_imd p) ∧ decile (rec_imd p) ≤ decile (rec_imd q) ∧
       decile (rec_imd q) ≤ 10) ∧
    (∀ p, p ∈ ref → (∀ q, q ∈ ref → rec_imd p ≤ rec_imd q) → decile (rec_imd p) = 1).
Proof.
  intros Hspans _ Hok.
  apply convert_lsoa_to_imd_decile_Ok in Hok
    as (_ & Himd & _ & bins & Hq & _ & _ & ->).
  rewrite list_fmap_compose in Hq. pose proof (Hspans bins Hq) as Hs.
  exists (λ z, match decile_cell bins (VInt z) with VInt d => d | _ => 0 end).
  split; [|split].
  - intros r' (r & Hr' & Hr%grouped_elem)%list_elem_of_bind.
    destruct (decile_rows_elem _ _ _ _ _ Himd Hr') as (p & Hp & Hkey & Hdec & _).
    destruct (decile_cell_reference _ _ (rec_imd p) Hs) as (d & _ & _ & Hcell);
      [by apply list_elem_of_fmap_2|].
    exists r, p. rewrite Hdec, Hcell. done.
  - intros p q Hp Hq' Hle.
    destruct (decile_cell_reference _ _ (rec_imd p) Hs) as (dp & Hdp & Hrp & ->);
      [by apply list_elem_of_fmap_2|].
    destruct (decile_cell_reference _ _ (rec_imd q) Hs) as (dq & Hdq & Hrq & ->);
      [by apply list_elem_of_fmap_2|].
    assert (dp ≤ dq)%nat; [|lia].
    eapply bin_index_mono; [done..|]. by rewrite <-Zle_Qle.
  - intros p Hp Hleast.
    destruct Hs as (Hlen & lo & hi & e0 & e10 & Hlo & _ & Hrange & H0 & He0 & _).
    apply list_elem_of_fmap in Hlo as (q & -> & Hq').
    assert (Heq : rec_imd p = rec_imd q).
    { pose proof (Hleast q Hq').
      pose proof (Hrange (rec_imd p) (list_elem_of_fmap_2 _ _ _ Hp)). lia. }
    rewrite Heq. by rewrite (first_edge_decile bins (rec_imd q) e0).
Qed.

(** ** When stage 4 raises *)

(** X10. A frame that already has a column of the name of the deprivation
    index does not get through stage 4: when its small areas are a column
    of strings and [qcut] returns its edges, the join renames both columns
    of that name, and the stage raises the [KeyError] of the name when it
    reads the column. *)
Theorem index_column_already_there ref qcut df bins :
  LSOA ∈ columns df →
  IMD ∈ columns df →
  dtype_of (cell LSOA <$> rows df) = object →
  qcut (VInt <$> (rec_imd <$> ref)) 10%positive = Ok bins →
  convert_lsoa_to_imd_decile ref qcut df = Raise (KeyError IMD).
Proof.
  intros Hlsoa Himd Hobj Hq. unfold convert_lsoa_to_imd_decile.
  rewrite select_lsoa_imd; cbn [bind].
  destruct (merge df _ LSOA) as [merged|e] eqn:Hm; cbn [bind].
  2: { unfold merge in Hm. cbn [drop_duplicates columns rows] in Hm.
       rewrite decide_True in Hm by (by left). rewrite decide_True in Hm by done.
       fold (reference_areas ref) in Hm.
       by rewrite merge_keys_error_object in Hm by (done || apply reference_areas_strings). }
  rewrite getcol_reference_imd; cbn [bind].
  rewrite list_fmap_compose, Hq; cbn [bind].
  rewrite getcol_missing; [done|].
  by eapply (merge_hides_common_column df).
Qed.

(** ** Ages on the edge of two brackets *)

(** X11. The brackets of stage 8 are closed on the right: an age that is
    the edge between two brackets gets the lower one, so that 18 is in
    "0-17", 25 in "18-24", 45 in "25-44", 65 in "45-64" and 85 in
    "65-84". *)
Theorem age_on_an_edge_gets_the_lower_bracket (df : DataFrame) :
  "Age" ∈ columns df →
  Forall is_numeric (cell "Age" <$> rows df) →
  ∃ out, add_age_brackets df = Ok out ∧
    ∀ i r a, rows df !! i = Some r → cell "Age" r = VInt a →
      ∃ r', rows out !! i = Some r' ∧
        (a = 18 → cell "Age bracket" r' = VStr "0-17") ∧
        (a = 25 → cell "Age bracket" r' = VStr "18-24") ∧
        (a = 45 → cell "Age bracket" r' = VStr "25-44") ∧
        (a = 65 → cell "Age bracket" r' = VStr "45-64") ∧
        (a = 85 → cell "Age bracket" r' = VStr "65-84").
Proof.
  intros Hcol Hnum.
  destruct (add_age_brackets df) as [out|e] eqn:Hok.
  2: { pose proof (proj2 (add_age_brackets_Ok df _) (conj Hcol (conj Hnum eq_refl))).
       congruence. }
  exists out. split; [done|].
  intros i r a Hr Ha.
  destruct (add_age_brackets_row _ _ _ _ Hok Hr) as (r' & Hr' & Hb & _).
  exists r'. split; [done|].
  rewrite Hb, Ha. simpl. rewrite age_bracket_of.
  repeat split; intros ->; reflexivity.
Qed.

(** ** The further properties at concrete frames *)

(** Stage 8 on the age 30. *)
Lemma add_age_brackets_needs_numeric_ages_witness :
  "Age" ∈ columns (ages_frame [30]) ∧
  ∃ out, add_age_brackets (ages_frame [30]) = Ok out ∧
    nrows out = nrows (ages_frame [30]).
Proof.
  assert (H1 : "Age" ∈ columns (ages_frame [30])) by by_evaluation.
  assert (H2 : Forall is_numeric (cell "Age" <$> rows (ages_frame [30]))) by by_evaluation.
  split; [exact H1|].
  destruct (proj1 (add_age_brackets_needs_numeric_ages _ H1) H2) as (out & Hok & Hn & _).
  exists out. split; [exact Hok|exact Hn].
Defined.

(** Stage 2 on the three visits, and again on the frame it returns. *)
Lemma stage_cannot_run_twice_witness :
  stages eleven_postcodes exact_qcut reverse iso_to_datetime !! 0%nat = Some remove_nhs_numbers ∧
  expected_columns !! 0%nat = Some "NHS number" ∧
  "NHS number" ≠ "Gender" ∧
  remove_nhs_numbers three_visits = Ok visits_without_nhs_number ∧
  remove_nhs_numbers visits_without_nhs_number = Raise (KeyError "NHS number").
Proof.
  assert (H1 : "NHS number" ≠ "Gender") by discriminate.
  assert (H2 : remove_nhs_numbers three_visits = Ok visits_without_nhs_number)
    by (vm_compute; reflexivity).
  split; [reflexivity|]. split; [reflexivity|]. split; [exact H1|]. split; [exact H2|].
  apply (stage_cannot_run_twice eleven_postcodes exact_qcut reverse iso_to_datetime 0
           remove_nhs_numbers "NHS number" three_visits visits_without_nhs_number
           eq_refl eq_refl H1 H2).
Defined.

(** The gender filter on the three visits returns the first two. *)
Lemma gender_filter_idempotent_witness :
  remove_non_male_or_female three_visits = Ok two_visits ∧
  remove_non_male_or_female two_visits = Ok two_visits.
Proof.
  assert (H : remove_non_male_or_female three_visits = Ok two_visits)
    by (vm_compute; reflexivity).
  split; [exact H|]. exact (gender_filter_idempotent _ _ H).
Defined.

(** The three visits of the scenario. *)
Lemma gender_filter_commutes_with_age_brackets_witness :
  "Gender" ∈ columns three_visits ∧ "Age" ∈ columns three_visits ∧
  Forall is_numeric (cell "Age" <$> rows three_visits) ∧
  ∃ out,
    (let* df1 := remove_non_male_or_female three_visits in add_age_brackets df1) = Ok out ∧
    (let* df1 := add_age_brackets three_visits in remove_non_male_or_female df1) = Ok out.
Proof.
  assert (H1 : "Gender" ∈ columns three_visits) by by_evaluation.
  assert (H2 : "Age" ∈ columns three_visits) by by_evaluation.
  assert (H3 : Forall is_numeric (cell "Age" <$> rows three_visits)) by by_evaluation.
  split; [exact H1|]. split; [exact H2|]. split; [exact H3|].
  exact (gender_filter_commutes_with_age_brackets three_visits H1 H2 H3).
Defined.

(** The three visits and the eleven postcodes: the two visits from the
    first postcode come first. *)
Lemma postcode_join_keeps_known_postcodes_witness :
  "Postcode" ∈ columns three_visits ∧
  (LSOA ∉ columns three_visits) ∧
  dtype_of (cell "Postcode" <$> rows three_visits) = object ∧
  NoDup (rec_postcode <$> eleven_postcodes) ∧
  ∃ out, convert_postcodes_to_lsoa eleven_postcodes three_visits = Ok out ∧
    columns out = (filter (λ c, c ≠ "Postcode") (columns three_visits) ++ [LSOA])%list ∧
    (cell "NHS number" <$> rows out) = [VStr "111"; VStr "333"; VStr "222"].
Proof.
  assert (H1 : "Postcode" ∈ columns three_visits) by by_evaluation.
  assert (H2 : LSOA ∉ columns three_visits) by by_evaluation.
  assert (H3 : dtype_of (cell "Postcode" <$> rows three_visits) = object) by reflexivity.
  assert (H4 : NoDup (rec_postcode <$> eleven_postcodes)) by by_evaluation.
  split; [exact H1|]. split; [exact H2|]. split; [exact H3|]. split; [exact H4|].
  destruct (postcode_join_keeps_known_postcodes eleven_postcodes three_visits H1 H2 H3 H4)
    as (out & Hok & _ & Hcols & _ & _ & Hcells & _).
  exists out. split; [exact Hok|]. split; [exact Hcols|].
  rewrite (Hcells "NHS number") by (by_evaluation || discriminate).
  vm_compute. reflexivity.
Defined.

(** Three visits in the small areas of the eleven postcodes, with the
    quantiles in exact arithmetic. *)
Lemma deciles_follow_the_index_witness :
  (∀ bins, exact_qcut (VInt <$> (rec_imd <$> eleven_postcodes)) 10%positive = Ok bins →
     spans bins (rec_imd <$> eleven_postcodes)) ∧
  Forall (λ p, float_exact (rec_imd p)) eleven_postcodes ∧
  ∃ out (decile : Z → Z),
    convert_lsoa_to_imd_decile eleven_postcodes exact_qcut visits_in_areas = Ok out ∧
    decile 1 = 1 ∧ 1 ≤ decile 3 ∧ decile 3 ≤ decile 10 ∧ decile 10 ≤ 10.
Proof.
  assert (H1 : ∀ bins,
    exact_qcut (VInt <$> (rec_imd <$> eleven_postcodes)) 10%positive = Ok bins →
    spans bins (rec_imd <$> eleven_postcodes)) by (intros bins; apply exact_qcut_spans).
  assert (H2 : Forall (λ p, float_exact (rec_imd p)) eleven_postcodes) by by_evaluation.
  split; [exact H1|]. split; [exact H2|].
  destruct (convert_lsoa_to_imd_decile eleven_postcodes exact_qcut visits_in_areas)
    as [out|e] eqn:Hok; [|vm_compute in Hok; discriminate Hok].
  destruct (deciles_follow_the_index eleven_postcodes exact_qcut visits_in_areas out
              H1 H2 Hok) as (decile & _ & Hmono & Hleast).
  exists out, decile. split; [reflexivity|].
  assert (Hp : ∀ i, 1 ≤ i ≤ 11 →
            {| rec_postcode := "P" +:+ pretty i; rec_lsoa := "L" +:+ pretty i; rec_imd := i |}
            ∈ eleven_postcodes).
  { intros i Hi. unfold eleven_postcodes. apply list_elem_of_fmap. exists i.
    split; [done|]. apply elem_of_seqZ. lia. }
  split.
  - apply (Hleast _ (Hp 1 ltac:(lia))). intros q Hq.
    unfold eleven_postcodes in Hq. apply list_elem_of_fmap in Hq as (i & -> & Hi).
    apply elem_of_seqZ in Hi. simpl. lia.
  - apply (Hmono _ _ (Hp 3 ltac:(lia)) (Hp 10 ltac:(lia))). simpl. lia.
Defined.

(** A visit with an index column, and the eleven postcodes. *)
Lemma index_column_already_there_witness :
  LSOA ∈ columns visit_with_an_index ∧
  IMD ∈ columns visit_with_an_index ∧
  dtype_of (cell LSOA <$> rows visit_with_an_index) = object ∧
  exact_qcut (VInt <$> (rec_imd <$> eleven_postcodes)) 10%positive
    = Ok (decile_edges eleven_postcodes) ∧
  convert_lsoa_to_imd_decile eleven_postcodes exact_qcut visit_with_an_index
    = Raise (KeyError IMD).
Proof.
  assert (H1 : LSOA ∈ columns visit_with_an_index) by by_evaluation.
  assert (H2 : IMD ∈ columns visit_with_an_index) by by_evaluation.
  assert (H3 : dtype_of (cell LSOA <$> rows visit_with_an_index) = object) by reflexivity.
  assert (H4 : exact_qcut (VInt <$> (rec_imd <$> eleven_postcodes)) 10%positive
                 = Ok (decile_edges eleven_postcodes)) by (vm_compute; reflexivity).
  split; [exact H1|]. split; [exact H2|]. split; [exact H3|]. split; [exact H4|].
  exact (index_column_already_there _ _ _ _ H1 H2 H3 H4).
Defined.

(** The age 18. *)
Lemma age_on_an_edge_gets_the_lower_bracket_witness :
  "Age" ∈ columns (ages_frame [18]) ∧
  Forall is_numeric (cell "Age" <$> rows (ages_frame [18])) ∧
  ∃ out r', add_age_brackets (ages_frame [18]) = Ok out ∧
    rows out !! 0%nat = Some r' ∧ cell "Age bracket" r' = VStr "0-17".
Proof.
  assert (H1 : "Age" ∈ columns (ages_frame [18])) by by_evaluation.
  assert (H2 : Forall is_numeric (cell "Age" <$> rows (ages_frame [18]))) by by_evaluation.
  split; [exact H1|]. split; [exact H2|].
  destruct (age_on_an_edge_gets_the_lower_bracket _ H1 H2) as (out & Hok & Hrows).
  destruct (Hrows 0%nat {[ "Age" := VInt 18 ]} 18 eq_refl eq_refl) as (r' & Hr' & Hb & _).
  exists out, r'. split; [exact Hok|]. split; [exact Hr'|]. apply Hb. reflexivity.
Defined.
